(** * DealScout: the cached API client and the deal filter/sort policy

    A shallow embedding of [code/api/client.py], [code/config.py] and the
    data path of [code/main.py] (sample deals, [load_deals], the KPI
    average, the filter loop and the sort step), followed by the
    properties of the design document stated over that embedding.

    Modelling conventions.
    - JSON-like Python values are the inductive [pyval]; a Python [dict]
      with string keys is a [gmap string pyval].
    - A Python [float] is modelled by the rational number its decimal
      literal denotes ([Q]); rounding is not modelled.  [float('inf')] is
      the extra point [PInf] of [xnum].
    - Python text is a [string], the bytes of its UTF-8 encoding where it
      is not ASCII.  [str.lower] follows the Unicode tables
      of the interpreter: it is a parameter, a [Lowering], of which only
      what the program relies on is assumed (the lowering of a text is
      empty exactly when the text is).  The lowering of the ASCII letters,
      [ascii_lowering], is the instance used on concrete ASCII text.
    - Exceptions are values of [exc]; a computation is a function from
      the client state to an [outcome] and a new state.
    - The network and the wall clock are an environment [world]: the
      n-th call of [session.request] and the n-th reading of
      [time.time()] are given by functions of n. *)

From Stdlib Require Import QArith String Ascii ZArith List Lia Lqa.
From stdpp Require Import gmap strings list fin_maps sorting pretty.

Set Warnings "-register-all".
Open Scope string_scope.

(** ** Python values and the built-ins the program uses *)

Module Py.

Inductive pyval : Type :=
  | VNone
  | VBool (b : bool)
  | VInt (z : Z)
  | VFloat (q : Q)
  | VStr (s : string)
  | VList (l : list pyval)
  | VDict (d : gmap string pyval).

(** The two exception classes the handlers of [_request] tell apart,
    and the ones raised by the built-ins below.  Every class here
    derives from [Exception]. *)
Inductive exc : Type :=
  | RequestException (msg : string)
  | TypeError (msg : string)
  | AttributeError (msg : string)
  | OtherException (msg : string).

Definition is_RequestException (e : exc) : bool :=
  match e with RequestException _ => true | _ => false end.

Inductive outcome (A : Type) : Type :=
  | Ok (a : A)
  | Raise (e : exc).
Arguments Ok {A} a.
Arguments Raise {A} e.

#[global] Instance outcome_ret : MRet outcome := fun A a => Ok a.
#[global] Instance outcome_fmap : FMap outcome := fun A B f c =>
  match c with Ok a => Ok (f a) | Raise e => Raise e end.
#[global] Instance outcome_bind : MBind outcome := fun A B k c =>
  match c with Ok a => k a | Raise e => Raise e end.

(** [bool(v)]: the truth value Python's [if v] and [not v] test. *)
Definition truthy (v : pyval) : bool :=
  match v with
  | VNone => false
  | VBool b => b
  | VInt z => negb (z =? 0)%Z
  | VFloat q => negb (Qeq_bool q 0)
  | VStr s => negb (String.eqb s "")
  | VList l => match l with [] => false | _ => true end
  | VDict d => negb (bool_decide (d = ∅))
  end.

(** [len(v)] *)
Definition len (v : pyval) : outcome Z :=
  match v with
  | VStr s => Ok (Z.of_nat (String.length s))
  | VList l => Ok (Z.of_nat (length l))
  | VDict d => Ok (Z.of_nat (size d))
  | _ => Raise (TypeError "object has no len()")
  end.

(** [d.get(k, default)] and [d.get(k)] *)
Definition get (d : gmap string pyval) (k : string) (dflt : pyval) : pyval :=
  match d !! k with Some v => v | None => dflt end.

Definition get1 (d : gmap string pyval) (k : string) : pyval := get d k VNone.

(** [s.lower()].  The case tables are the interpreter's: a lowering is
    any function on text that empties no text but the empty one. *)
Class Lowering : Type := {
  lower : string -> string;
  lower_empty : forall s, lower s = "" <-> s = ""
}.

(** [c.lower()] on one ASCII character, and [s.lower()] on ASCII text *)
Definition lower_ascii (c : ascii) : ascii :=
  let n := N_of_ascii c in
  if ((65 <=? n) && (n <=? 90))%N then ascii_of_N (n + 32) else c.

Fixpoint ascii_lower (s : string) : string :=
  match s with
  | EmptyString => EmptyString
  | String c s' => String (lower_ascii c) (ascii_lower s')
  end.

Definition ascii_lowering : Lowering :=
  {| lower := ascii_lower;
     lower_empty := ltac:(intros [|c s]; split; intros H;
                          (reflexivity || discriminate H)) |}.

(** [v.lower()] on a value: only [str] has the method. *)
Definition lower_method {L : Lowering} (v : pyval) : outcome string :=
  match v with
  | VStr s => Ok (lower s)
  | _ => Raise (AttributeError "object has no attribute 'lower'")
  end.

(** [q in s] for two strings *)
Fixpoint contains (q s : string) : bool :=
  String.prefix q s ||
  match s with
  | EmptyString => false
  | String _ s' => contains q s'
  end.

(** [s.lstrip(c)] and [s.rstrip(c)] for a one-character set *)
Fixpoint lstrip (c : ascii) (s : string) : string :=
  match s with
  | String a s' => if Ascii.eqb a c then lstrip c s' else s
  | EmptyString => EmptyString
  end.

Fixpoint rstrip (c : ascii) (s : string) : string :=
  match s with
  | String a s' =>
      match rstrip c s' with
      | EmptyString => if Ascii.eqb a c then EmptyString else String a EmptyString
      | r => String a r
      end
  | EmptyString => EmptyString
  end.

(** [sep.join(l)] *)
Definition join (sep : string) (l : list string) : string := String.concat sep l.

(** [str(n)] for an [int], as an f-string field renders it *)
Definition str_int (n : Z) : string := pretty n.

(** ** Sorting

    [sorted(l)] and [l.sort(key=..., reverse=...)] are stable: elements
    with equal keys keep their order, also under [reverse=True].  The
    model is the stable insertion sort; [before kx ky] says that an
    element with key [kx] must come strictly before one with key [ky]. *)
Section StableSort.
Context {A K : Type} (key : A -> K) (before : K -> K -> bool).

Fixpoint insert_stable (x : A) (l : list A) : list A :=
  match l with
  | [] => [x]
  | y :: l' =>
      if before (key y) (key x) then y :: insert_stable x l'
      else x :: y :: l'
  end.

Definition sort_stable (l : list A) : list A :=
  foldr insert_stable [] l.
End StableSort.

(** [sorted(l)] on a list of strings: code-point order *)
Definition sorted (l : list string) : list string :=
  sort_stable (fun s => s) String.ltb l.

(** Numbers extended with [float('inf')] *)
Inductive xnum : Type :=
  | Fin (q : Q)
  | PInf.

(** [x < y] on numbers *)
Definition Qltb (x y : Q) : bool := (Qnum x * QDen y <? Qnum y * QDen x)%Z.

Definition num_ltb (a b : xnum) : bool :=
  match a, b with
  | Fin x, Fin y => Qltb x y
  | Fin _, PInf => true
  | PInf, _ => false
  end.

(** Tuples of two numbers compare lexicographically. *)
Definition pair_ltb (a b : Q * Q) : bool :=
  Qltb a.1 b.1 || (Qeq_bool a.1 b.1 && Qltb a.2 b.2).

(** The number a value denotes in a sum; a [bool] counts as the [int] 1
    or 0, and the other types are not numbers. *)
Definition as_number (v : pyval) : outcome Q :=
  match v with
  | VBool b => Ok (if b then 1%Q else 0%Q)
  | VInt z => Ok (inject_Z z)
  | VFloat q => Ok q
  | _ => Raise (TypeError "not a number")
  end.

End Py.
Export Py.

(** ** [code/config.py] *)

Module Config.

Record Settings : Type := {
  API_BASE_URL : string;
  API_KEY : string;
  DEFAULT_ZIP_CODE : string;
  DEFAULT_RADIUS : Z;
  CACHE_TTL : Z;
  LOG_LEVEL : string
}.

(** The values taken when the environment sets none of the variables. *)
Definition default_settings : Settings := {|
  API_BASE_URL := "https://api.dealscout.example.com/v1";
  API_KEY := "";
  DEFAULT_ZIP_CODE := "78704";
  DEFAULT_RADIUS := 5;
  CACHE_TTL := 3600;
  LOG_LEVEL := "INFO"
|}.

End Config.
Export Config.

(** ** [code/api/client.py] *)

Module Client.

(** The keyword arguments [_request] forwards to [session.request]. *)
Record kwargs : Type := {
  kw_params : option (gmap string pyval);
  kw_json : option (gmap string pyval)
}.

Definition no_kwargs : kwargs := {| kw_params := None; kw_json := None |}.
Definition with_params (p : gmap string pyval) : kwargs :=
  {| kw_params := Some p; kw_json := None |}.

Record request : Type := {
  req_method : string;
  req_url : string;
  req_headers : list (string * string);
  req_kwargs : kwargs
}.

(** What the program does with a [requests.Response]: it calls
    [raise_for_status()] and then [json()]. *)
Record response : Type := {
  raise_for_status : outcome unit;
  json : outcome pyval
}.

(** The environment.  [session_request n r] is what the mounted session
    (adapter, retries and backoff included) answers to the request [r]
    when it is the n-th one issued; [clock n] is the n-th reading of
    [time.time()]. *)
Record world : Type := {
  session_request : nat -> request -> outcome response;
  clock : nat -> Q
}.

Inductive log_record : Type :=
  | LogDebug (msg : string)
  | LogWarning (msg : string)
  | LogError (msg : string).

(** [urllib3.util.retry.Retry(...)] as configured by [_create_session] *)
Record Retry : Type := {
  total : Z;
  backoff_factor : Z;
  status_forcelist : list Z;
  allowed_methods : list string
}.

Record Session : Type := {
  max_retries : Retry;
  headers : list (string * string)
}.

(** The immutable attributes of a [DealScoutAPI] object. *)
Record DealScoutAPI : Type := {
  api_key : string;
  base_url : string;
  session : Session
}.

(** The mutable part: [self.cache], and the history of the effects. *)
Record state : Type := {
  cache : gmap string (pyval * Q);
  ticks : nat;
  sent : list request;
  log : list log_record
}.

Definition set_cache_field (c : gmap string (pyval * Q)) (st : state) : state :=
  {| cache := c; ticks := ticks st; sent := sent st; log := log st |}.

(** The clock has been read once more. *)
Definition advance (st : state) : state :=
  {| cache := cache st; ticks := S (ticks st); sent := sent st; log := log st |}.

Definition M (A : Type) : Type := state -> outcome A * state.

#[global] Instance M_ret : MRet M := fun A a st => (Ok a, st).
#[global] Instance M_bind : MBind M := fun A B k c st =>
  match c st with
  | (Ok a, st') => k a st'
  | (Raise e, st') => (Raise e, st')
  end.

(** [try: body  except ... as e: handler e] *)
Definition try_except {A} (body : M A) (handler : exc -> M A) : M A :=
  fun st =>
    match body st with
    | (Ok a, st') => (Ok a, st')
    | (Raise e, st') => handler e st'
    end.

Definition lift {A} (o : outcome A) : M A := fun st => (o, st).

Definition get_cache : M (gmap string (pyval * Q)) :=
  fun st => (Ok (cache st), st).

Definition put_cache (c : gmap string (pyval * Q)) : M unit :=
  fun st => (Ok tt, set_cache_field c st).

Definition logger (r : log_record) : M unit :=
  fun st => (Ok tt, {| cache := cache st; ticks := ticks st;
                       sent := sent st; log := log st ++ [r] |}).

Definition _create_session (key : string) : Session := {|
  max_retries := {| total := 3; backoff_factor := 1;
                    status_forcelist := [429; 500; 502; 503; 504]%Z;
                    allowed_methods := ["GET"; "POST"; "PUT"; "DELETE"] |};
  headers := [("Authorization", "Bearer " +:+ key);
              ("Content-Type", "application/json");
              ("Accept", "application/json")]
|}.

(** [x or y] on an optional string argument *)
Definition or_else (x : option string) (y : string) : string :=
  match x with
  | Some s => if truthy (VStr s) then s else y
  | None => y
  end.

(** [DealScoutAPI.__init__] *)
Definition __init__ (settings : Settings) (key url : option string)
  : DealScoutAPI * state :=
  let k := or_else key (API_KEY settings) in
  ({| api_key := k;
      base_url := or_else url (API_BASE_URL settings);
      session := _create_session k |},
   {| cache := ∅; ticks := 0; sent := []; log := [] |}).

Section Methods.
Context (w : world) (settings : Settings) (self : DealScoutAPI).

(** [time.time()] *)
Definition time_time : M Q :=
  fun st => (Ok (clock w (ticks st)), advance st).

(** [self.session.request(method, url, **kwargs)]: the session adds
    its default headers, and the request goes out. *)
Definition prepare (method url : string) (kw : kwargs) : request :=
  {| req_method := method; req_url := url;
     req_headers := headers (session self); req_kwargs := kw |}.

Definition session_call (method url : string) (kw : kwargs) : M response :=
  fun st =>
    let r := prepare method url kw in
    (session_request w (length (sent st)) r,
     {| cache := cache st; ticks := ticks st;
        sent := sent st ++ [r]; log := log st |}).

Definition _get_cached (key : string) : M pyval :=
  c ← get_cache;
  match c !! key with
  | Some (value, timestamp) =>
      now ← time_time;
      if Qltb (now - timestamp) (inject_Z (CACHE_TTL settings))
      then mret value
      else put_cache (delete key c) ;; mret VNone
  | None => mret VNone
  end.

Definition _set_cache (key : string) (value : pyval) : M unit :=
  now ← time_time;
  c ← get_cache;
  put_cache (<[key := (value, now)]> c).

Definition exc_message (e : exc) : string :=
  match e with
  | RequestException m | TypeError m | AttributeError m | OtherException m => m
  end.

Definition url_of (endpoint : string) : string :=
  rstrip "/" (base_url self) +:+ "/" +:+ lstrip "/" endpoint.

Definition _request (method endpoint : string) (kw : kwargs) : M pyval :=
  let url := url_of endpoint in
  try_except
    (logger (LogDebug ("Making " +:+ method +:+ " request to " +:+ url)) ;;
     response ← session_call method url kw;
     lift (raise_for_status response) ;;
     lift (json response))
    (fun e =>
       if is_RequestException e then
         logger (LogWarning ("API request failed: " +:+ exc_message e)) ;;
         mret VNone
       else
         logger (LogError ("Unexpected error in API request: " +:+ exc_message e)) ;;
         mret VNone).

(** The cache fingerprints, one per cached operation. *)
Definition deals_key (zip_code : string) (radius : Z)
    (store_chains : option (list string)) : string :=
  "deals_" +:+ zip_code +:+ "_" +:+ str_int radius +:+ "_" +:+
  join "_" (sorted (default [] store_chains)).

Definition search_key (query zip_code : string) (radius : Z) : string :=
  "search_" +:+ query +:+ "_" +:+ zip_code +:+ "_" +:+ str_int radius.

Definition stores_key (zip_code : string) (radius : Z)
    (chains : option (list string)) : string :=
  "stores_" +:+ zip_code +:+ "_" +:+ str_int radius +:+ "_" +:+
  join "_" (sorted (default [] chains)).

Definition store_key (store_id : string) : string :=
  "store_" +:+ store_id.

(** [params = {"zip_code": ..., "radius": ...}] and the optional
    ["chains"] entry, added when the list is neither [None] nor empty *)
Definition location_params (zip_code : string) (radius : Z)
    (chains : option (list string)) : gmap string pyval :=
  let params := <["radius" := VInt radius]> (<["zip_code" := VStr zip_code]> ∅) in
  match chains with
  | Some (c :: cs) => <["chains" := VStr (join "," (c :: cs))]> params
  | _ => params
  end.

Definition get_todays_deals (zip_code : string) (radius : Z)
    (store_chains : option (list string)) : M pyval :=
  let cache_key := deals_key zip_code radius store_chains in
  cached ← _get_cached cache_key;
  if truthy cached then mret cached
  else
    let params := location_params zip_code radius store_chains in
    data ← _request "GET" "deals/today" (with_params params);
    _set_cache cache_key data ;;
    mret data.

Definition search_products (query zip_code : string) (radius : Z) : M pyval :=
  let cache_key := search_key query zip_code radius in
  cached ← _get_cached cache_key;
  if truthy cached then mret cached
  else
    let params := <["radius" := VInt radius]>
                    (<["zip_code" := VStr zip_code]>
                       (<["query" := VStr query]> ∅)) in
    data ← _request "GET" "products/search" (with_params params);
    _set_cache cache_key data ;;
    mret data.

Definition get_nearby_stores (zip_code : string) (radius : Z)
    (chains : option (list string)) : M pyval :=
  let cache_key := stores_key zip_code radius chains in
  cached ← _get_cached cache_key;
  if truthy cached then mret cached
  else
    let params := location_params zip_code radius chains in
    data ← _request "GET" "stores/nearby" (with_params params);
    _set_cache cache_key data ;;
    mret data.

Definition get_store_details (store_id : string) : M pyval :=
  let cache_key := store_key store_id in
  cached ← _get_cached cache_key;
  if truthy cached then mret cached
  else
    data ← _request "GET" ("stores/" +:+ store_id) no_kwargs;
    _set_cache cache_key data ;;
    mret data.


Definition get_user_alerts : M pyval :=
  _request "GET" "alerts" no_kwargs.

Definition delete_alert (alert_id : string) : M bool :=
  _request "DELETE" ("alerts/" +:+ alert_id) no_kwargs ;;
  mret true.

End Methods.

End Client.
Export Client.

(** ** [code/main.py]: the data path of the dashboard *)

Module App.

Abbreviation deal := (gmap string pyval).

Definition mock_deal (id product_name brand : string) (price original_price : Q)
    (discount_percent : Z) (store_name store_id : string) (distance : Q)
    (image_url category : string) : deal :=
  list_to_map
    [("id", VStr id); ("product_name", VStr product_name); ("brand", VStr brand);
     ("price", VFloat price); ("original_price", VFloat original_price);
     ("discount_percent", VInt discount_percent);
     ("store_name", VStr store_name); ("store_id", VStr store_id);
     ("distance", VFloat distance); ("image_url", VStr image_url);
     ("category", VStr category)].

Definition get_mock_deals : list deal :=
  [ mock_deal "1" "Organic Whole Milk - 1 Gallon" "Organic Valley" 4.99 5.99 17
      "HEB" "HEB-123" 1.5
      "https://m.media-amazon.com/images/I/71vUGB0GJEL._AC_UF1000,1000_QL80_.jpg"
      "Dairy";
    mock_deal "2" "Large Brown Eggs - 12 Count" "Happy Egg Co" 3.49 4.99 30
      "Walmart" "WAL-456" 2.1
      "https://m.media-amazon.com/images/I/81x5K5VvWEL._AC_UF1000,1000_QL80_.jpg"
      "Dairy";
    mock_deal "3" "Fresh Ground Beef - 1lb" "Certified Angus Beef" 5.99 7.99 25
      "HEB" "HEB-123" 1.5
      "https://m.media-amazon.com/images/I/71vUGB0GJEL._AC_UF1000,1000_QL80_.jpg"
      "Meat";
    mock_deal "4" "Organic Bananas - 1lb" "Dole" 0.59 0.79 25
      "Whole Foods" "WF-789" 3.2
      "https://m.media-amazon.com/images/I/61fZ+YAYGaL._AC_UF1000,1000_QL80_.jpg"
      "Produce";
    mock_deal "5" "Cage-Free Chicken Breast - 2.5lb" "Perdue" 8.99 12.99 31
      "HEB" "HEB-123" 1.5
      "https://m.media-amazon.com/images/I/61fZ+YAYGaL._AC_UF1000,1000_QL80_.jpg"
      "Meat";
    mock_deal "6" "Organic Strawberries - 16oz" "Driscoll's" 3.99 5.99 33
      "Trader Joe's" "TJ-101" 4.5
      "https://m.media-amazon.com/images/I/61fZ+YAYGaL._AC_UF1000,1000_QL80_.jpg"
      "Produce" ].

(** A list of dicts as the value the client hands over, and back. *)
Definition of_deals (l : list deal) : pyval := VList (VDict <$> l).

Definition as_deal (v : pyval) : outcome deal :=
  match v with
  | VDict d => Ok d
  | _ => Raise (AttributeError "object has no attribute 'get'")
  end.

Definition as_deals (v : pyval) : outcome (list deal) :=
  match v with
  | VList l => mapM as_deal l
  | _ => Raise (TypeError "not a list of deals")
  end.

(** [st.warning] and [st.error] leave their message in the log. *)
Definition st_warning (msg : string) : M unit := logger (LogWarning msg).
Definition st_error (msg : string) : M unit := logger (LogError msg).

(** [load_deals].  [api_client] is [st.session_state.api_client], absent
    or [None] when it is [None] here.  The decorator [st.cache_data]
    replays a result of this body for repeated arguments; the body is
    what is modelled. *)
Definition load_deals (w : world) (settings : Settings)
    (api_client : option DealScoutAPI)
    (zip_code : string) (radius : Z) (store_chains : list string)
  : M (pyval * Z) :=
  try_except
    (returned ←
       match api_client with
       | Some client =>
           try_except
             (deals ← get_todays_deals w settings client zip_code radius
                        (Some store_chains);
              if negb (truthy deals) then
                n ← lift (len (of_deals get_mock_deals));
                mret (Some (of_deals get_mock_deals, n))
              else
                n ← lift (len deals);
                mret (Some (deals, n)))
             (fun api_error =>
                st_warning ("API error: " +:+ exc_message api_error +:+
                            ". Falling back to sample data.") ;;
                mret None)
       | None => mret None
       end;
     match returned with
     | Some result => mret result
     | None =>
         let mock_deals := of_deals get_mock_deals in
         n ← lift (len mock_deals);
         mret (mock_deals, n)
     end)
    (fun e =>
       st_error ("Error loading deals: " +:+ exc_message e) ;;
       mret (VList [], 0%Z)).

(** The "Average Savings" metric:
    [sum(deal.get('discount_percent', 0) for deal in deals) / len(deals)
     if deals else 0] *)
Definition sum_discounts (deals : list deal) : outcome Q :=
  foldl (fun acc deal =>
           s ← acc;
           x ← as_number (get deal "discount_percent" (VInt 0));
           mret (s + x)%Q)
        (Ok 0%Q) deals.

Definition avg_savings (deals : pyval) : outcome Q :=
  if truthy deals then
    l ← as_deals deals;
    s ← sum_discounts l;
    n ← len deals;
    mret (s / inject_Z n)%Q
  else mret 0%Q.

(** The quick-search box: [st.text_input(...).lower()] *)
Definition quick_search {L : Lowering} (typed : string) : string := lower typed.

(** [v != s] for a value and a string *)
Definition differs_from (v : pyval) (s : string) : bool :=
  match v with
  | VStr t => negb (String.eqb t s)
  | _ => true
  end.

(** [any(search_query in field for field in search_fields if field)] *)
Definition any_field {L : Lowering} (search_query : string) (deal : deal)
  : outcome bool :=
  f1 ← lower_method (get deal "product_name" (VStr ""));
  f2 ← lower_method (get deal "brand" (VStr ""));
  f3 ← lower_method (get deal "category" (VStr ""));
  let search_fields := [f1; f2; f3] in
  mret (existsb (contains search_query)
          (List.filter (fun field => truthy (VStr field)) search_fields)).

(** The filter loop: [true] when the deal is appended. *)
Definition keeps {L : Lowering} (search_query category_filter : string)
    (deal : deal) : outcome bool :=
  skipped ← (if truthy (VStr search_query)
             then found ← any_field search_query deal; mret (negb found)
             else mret false);
  if (skipped : bool) then mret false
  else if negb (String.eqb category_filter "All")
          && differs_from (get1 deal "category") category_filter
  then mret false
  else mret true.

Fixpoint filter_loop {L : Lowering} (search_query category_filter : string)
    (deals : list deal) : outcome (list deal) :=
  match deals with
  | [] => mret []
  | deal :: rest =>
      k ← keeps search_query category_filter deal;
      filtered ← filter_loop search_query category_filter rest;
      mret (if (k : bool) then deal :: filtered else filtered)
  end.

Definition filtered_deals {L : Lowering} (search_query category_filter : string)
    (deals : list deal) : outcome (list deal) :=
  match deals with
  | [] => mret []
  | _ => filter_loop search_query category_filter deals
  end.

(** *** The sort step *)

(** [x.get(field, float('inf'))] as a sort key.  The keys the sort step
    orders are numbers; a key that is not one is an error here, where
    Python would still order keys that are all text and raise at the
    first comparison of a text with a number. *)
Definition key_or_inf (field : string) (x : deal) : outcome xnum :=
  match x !! field with
  | Some v => q ← as_number v; mret (Fin q)
  | None => mret PInf
  end.

(** [x.get(field, 0)] as a number *)
Definition key_or_0 (field : string) (x : deal) : outcome Q :=
  as_number (get x field (VInt 0)).

(** [(x.get('discount_percent', 0), -x.get('price', 0))] *)
Definition key_best_value (x : deal) : outcome (Q * Q) :=
  d ← key_or_0 "discount_percent" x;
  p ← key_or_0 "price" x;
  mret (d, (- p)%Q).

(** [l.sort(key=key, reverse=reverse)]: the keys are computed first, one
    per element, and the elements are then ordered by their keys. *)
Definition list_sort {K} (key : deal -> outcome K) (ltb : K -> K -> bool)
    (reverse : bool) (l : list deal) : outcome (list deal) :=
  keyed ← mapM (fun x => k ← key x; mret (k, x)) l;
  let before := if reverse then (fun a b => ltb b a) else ltb in
  mret (snd <$> sort_stable fst before keyed).

Definition sort_deals (sort_option : string) (filtered : list deal)
  : outcome (list deal) :=
  if String.eqb sort_option "Price (Low to High)" then
    list_sort (key_or_inf "price") num_ltb false filtered
  else if String.eqb sort_option "Discount %" then
    list_sort (key_or_0 "discount_percent") Qltb true filtered
  else if String.eqb sort_option "Distance" then
    list_sort (key_or_inf "distance") num_ltb false filtered
  else
    list_sort key_best_value pair_ltb true filtered.

End App.
Export App.

(** * The vocabulary of the properties *)

Module Spec.

Definition raises {A} (o : outcome A) : Prop := exists e, o = Raise e.

(** The request [_request] puts on the wire. *)
Definition wire (self : DealScoutAPI) (method endpoint : string) (kw : kwargs)
  : request :=
  prepare self method (url_of self endpoint) kw.

(** The three ways a call can go wrong: the session raises (connection
    error, timeout, retries exhausted), [raise_for_status] raises (error
    status), or [json] raises (malformed body). *)
Definition transport_fails (o : outcome response) : Prop :=
  match o with
  | Raise _ => True
  | Ok r => raises (raise_for_status r) \/ raises (json r)
  end.

(** A successful call that carries the body [v]. *)
Definition transport_succeeds (o : outcome response) (v : pyval) : Prop :=
  exists r, o = Ok r /\ raise_for_status r = Ok tt /\ json r = Ok v.

(** What the caller of [_request] sees for an answer of the session. *)
Definition seen (o : outcome response) : pyval :=
  match o with
  | Ok r =>
      match raise_for_status r, json r with
      | Ok _, Ok v => v
      | _, _ => VNone
      end
  | Raise _ => VNone
  end.

(** The four cached read operations, as data. *)
Inductive call : Type :=
  | TodaysDeals (zip_code : string) (radius : Z) (store_chains : option (list string))
  | SearchProducts (query zip_code : string) (radius : Z)
  | NearbyStores (zip_code : string) (radius : Z) (chains : option (list string))
  | StoreDetails (store_id : string).

Definition fingerprint (c : call) : string :=
  match c with
  | TodaysDeals z r s => deals_key z r s
  | SearchProducts q z r => search_key q z r
  | NearbyStores z r s => stores_key z r s
  | StoreDetails i => store_key i
  end.

Definition run (w : world) (settings : Settings) (self : DealScoutAPI) (c : call)
  : M pyval :=
  match c with
  | TodaysDeals z r s => get_todays_deals w settings self z r s
  | SearchProducts q z r => search_products w settings self q z r
  | NearbyStores z r s => get_nearby_stores w settings self z r s
  | StoreDetails i => get_store_details w settings self i
  end.

(** The request a cached read sends when it goes to the network. *)
Definition wire_of (self : DealScoutAPI) (c : call) : request :=
  match c with
  | TodaysDeals z r s =>
      wire self "GET" "deals/today" (with_params (location_params z r s))
  | SearchProducts q z r =>
      wire self "GET" "products/search"
        (with_params (<["radius" := VInt r]>
                        (<["zip_code" := VStr z]> (<["query" := VStr q]> ∅))))
  | NearbyStores z r s =>
      wire self "GET" "stores/nearby" (with_params (location_params z r s))
  | StoreDetails i => wire self "GET" ("stores/" +:+ i) no_kwargs
  end.

(** The shape the four cached reads share. *)
Definition cached_read (w : world) (settings : Settings) (self : DealScoutAPI)
    (cache_key method endpoint : string) (kw : kwargs) : M pyval :=
  cached ← _get_cached w settings cache_key;
  if truthy cached then mret cached
  else
    data ← _request w self method endpoint kw;
    _set_cache w cache_key data ;;
    mret data.

(** The cache holds [v] under [key], and the entry is younger than the
    TTL at the next reading of the clock. *)
Definition cache_hit (w : world) (settings : Settings) (st : state)
    (key : string) (v : pyval) : Prop :=
  exists ts, cache st !! key = Some (v, ts) /\
             (clock w (ticks st) - ts < inject_Z (CACHE_TTL settings))%Q.

(** Two calls ask for the same thing: same operation, same scalar
    arguments, and the same chains up to their order. *)
Definition same_request (c1 c2 : call) : Prop :=
  match c1, c2 with
  | TodaysDeals z1 r1 s1, TodaysDeals z2 r2 s2 =>
      z1 = z2 /\ r1 = r2 /\ default [] s1 ≡ₚ default [] s2
  | SearchProducts q1 z1 r1, SearchProducts q2 z2 r2 =>
      q1 = q2 /\ z1 = z2 /\ r1 = r2
  | NearbyStores z1 r1 s1, NearbyStores z2 r2 s2 =>
      z1 = z2 /\ r1 = r2 /\ default [] s1 ≡ₚ default [] s2
  | StoreDetails i1, StoreDetails i2 => i1 = i2
  | _, _ => False
  end.

(** No character of [s] is the delimiter of the fingerprints. *)
Fixpoint delim_free (s : string) : bool :=
  match s with
  | EmptyString => true
  | String c s' => negb (Ascii.eqb c "_") && delim_free s'
  end.

Definition plain_chains (o : option (list string)) : Prop :=
  Forall (fun s => delim_free s = true /\ s <> "") (default [] o).

Definition plain_call (c : call) : Prop :=
  match c with
  | TodaysDeals z _ s | NearbyStores z _ s => delim_free z = true /\ plain_chains s
  | SearchProducts q z _ => delim_free q = true /\ delim_free z = true
  | StoreDetails _ => True
  end.

(** [q] occurs in [s]. *)
Definition substring_of (q s : string) : Prop :=
  exists pre post, s = pre +:+ q +:+ post.

(** The text of a deal the quick search looks at. *)
Definition text_of (d : deal) (k : string) : list string :=
  match d !! k with Some (VStr s) => [s] | _ => [] end.

Definition text_fields (d : deal) : list string :=
  text_of d "product_name" ++ text_of d "brand" ++ text_of d "category".

(** The three searched fields are text when they are present. *)
Definition text_typed (d : deal) : Prop :=
  forall k v, k ∈ ["product_name"; "brand"; "category"] ->
              d !! k = Some v -> exists s, v = VStr s.

(** The filter condition of the design: the typed query is empty or occurs,
    letter case ignored, in one of the fields; and the selector is "All"
    or the deal's category. *)
Definition wanted {L : Lowering} (typed category_filter : string) (d : deal)
  : Prop :=
  (typed = "" \/ Exists (fun f => substring_of (lower typed) (lower f)) (text_fields d))
  /\ (category_filter = "All" \/ d !! "category" = Some (VStr category_filter)).

(** [kept] is [l] with exactly the elements satisfying [P] kept, in order. *)
Inductive selects {A} (P : A -> Prop) : list A -> list A -> Prop :=
  | selects_nil : selects P [] []
  | selects_keep x l kept : P x -> selects P l kept -> selects P (x :: l) (x :: kept)
  | selects_drop x l kept : ~ P x -> selects P l kept -> selects P (x :: l) kept.

(** The sort keys of the design, with their defaults for a missing field. *)
Definition number_in (v : pyval) : option Q :=
  match v with
  | VInt z => Some (inject_Z z)
  | VFloat q => Some q
  | _ => None
  end.

Definition field_or_inf (k : string) (d : deal) : xnum :=
  match d !! k ≫= number_in with Some q => Fin q | None => PInf end.

Definition field_or_0 (k : string) (d : deal) : Q :=
  default 0%Q (d !! k ≫= number_in).


Definition lex_le (a b : Q * Q) : Prop :=
  (a.1 < b.1)%Q \/ (a.1 == b.1 /\ a.2 <= b.2)%Q.

Definition best_value_pair (d : deal) : Q * Q :=
  (field_or_0 "discount_percent" d, (- field_or_0 "price" d)%Q).

(** The fields the sort keys read hold numbers when they are present. *)
Definition numeric_keys (d : deal) : Prop :=
  forall k v, k ∈ ["price"; "discount_percent"; "distance"] ->
              d !! k = Some v -> is_Some (number_in v).


(** [x] may stand before [y] in the output of the stable sort: the key
    of [y] is not strictly before the key of [x]. *)
Definition ordered_by {A K} (key : A -> K) (before : K -> K -> bool)
  : relation A :=
  fun x y => before (key y) (key x) = false.



End Spec.
Export Spec.

(** * Concrete scenarios *)

Module Scenario.

(** An upstream that answers every request with status OK and body [v]. *)
Definition answer (v : pyval) : outcome response :=
  Ok {| raise_for_status := Ok tt; json := Ok v |}.

(** The clock shows [t0] at the first reading and one second more at each
    later one. *)
Definition seconds_from (t0 : Z) (n : nat) : Q := inject_Z (t0 + Z.of_nat n).

Definition upstream (v : pyval) (t0 : Z) : world :=
  {| session_request := fun _ _ => answer v; clock := seconds_from t0 |}.

(** An upstream that cannot be reached. *)
Definition unreachable : world :=
  {| session_request := fun _ _ => Raise (RequestException "connection refused");
     clock := seconds_from 0 |}.

Definition client0 : DealScoutAPI := (__init__ default_settings None None).1.
Definition fresh : state := (__init__ default_settings None None).2.

(** A client whose cache holds [v] under [key], stored at time 0. *)
Definition holding (key : string) (v : pyval) : state :=
  {| cache := {[ key := (v, 0%Q) ]}; ticks := 0; sent := []; log := [] |}.

Definition austin_deals : call := TodaysDeals "78704" 5 (Some ["HEB"; "Walmart"]).

Definition one_deal : pyval :=
  VList [VDict {[ "product_name" := VStr "Butter"; "price" := VFloat 2.5 ]}].

End Scenario.
Export Scenario.

(** * More of the program *)

(** ** [code/main.py]: the category selector and the price trends *)

Module Dashboard.

(** [deal.get('category', 'Other')] as an entry of the selector.  The
    model covers text: [None] stands for a category that is not a [str],
    whose hashing and ordering by Python is not modelled. *)
Definition category_or_other (d : deal) : option string :=
  match get d "category" (VStr "Other") with
  | VStr s => Some s
  | _ => None
  end.

(** [["All"] + sorted(list(set(deal.get('category', 'Other') for deal in
    deals)))].  The order in which Python enumerates the set does not
    matter, since the list is sorted. *)
Definition category_options (deals : list deal) : option (list string) :=
  cs ← mapM category_or_other deals;
  Some ("All" :: sorted (remove_dups cs)).

(** [l[-i]] for a positive [i] *)
Definition from_end {A} (l : list A) (i : nat) : outcome A :=
  match i, l !! (length l - i)%nat with
  | S _, Some x =>
      if (i <=? length l)%nat then Ok x
      else Raise (OtherException "IndexError: list index out of range")
  | _, _ => Raise (OtherException "IndexError: list index out of range")
  end.

Definition calculate_mom_change (prices : list Q) : outcome Q :=
  if (Z.of_nat (length prices) <? 2)%Z then mret 0%Q
  else
    last ← from_end prices 1;
    previous ← from_end prices 2;
    if Qeq_bool previous 0
    then Raise (OtherException "ZeroDivisionError: float division by zero")
    else mret (((last - previous) / previous) * 100)%Q.

Definition dairy_trend : list Q :=
  [4.99; 4.79; 4.89; 4.95; 4.99; 5.29; 5.49; 5.29; 5.19; 4.99; 4.89; 4.79]%Q.
Definition meat_trend : list Q :=
  [8.99; 9.29; 8.79; 8.99; 9.49; 9.99; 10.49; 10.29; 9.99; 9.49; 9.29; 9.49]%Q.
Definition produce_trend : list Q :=
  [3.49; 3.29; 3.19; 2.99; 2.79; 2.99; 3.29; 3.49; 3.29; 2.99; 3.19; 3.49]%Q.

End Dashboard.
Export Dashboard.

(** ** [code/models.py] *)

Module Models.

(** A [datetime] is a number of seconds. *)
Record Product : Type := {
  id : string;
  name : string;
  brand : option string;
  description : option string;
  category : option string;
  image_url : option string;
  upc : option string;
  price : Q;
  original_price : option Q;
  unit_price : option Q;
  unit : option string;
  store_id : string;
  store_name : string;
  is_on_sale : bool;
  sale_ends : option Z;
  discount_percent : option Q
}.

Record PriceAlert : Type := {
  alert_id : string;
  alert_product_id : string;
  alert_product_name : string;
  target_price : Q;
  current_price : Q;
  is_active : bool;
  created_at : Z;
  last_triggered : option Z
}.

Definition price_difference (self : PriceAlert) : Q :=
  (current_price self - target_price self)%Q.

Definition price_difference_percent (self : PriceAlert) : Q :=
  if Qeq_bool (current_price self) 0 then 0%Q
  else (((current_price self - target_price self) / current_price self) * 100)%Q.

Record SearchResult : Type := {
  products : list Product;
  total_results : Z;
  page : Z;
  page_size : Z;
  query : string;
  filters : gmap string pyval
}.

Definition has_more (self : SearchResult) : bool :=
  (page self * page_size self <? total_results self)%Z.

Record PriceHistoryPoint : Type := {
  date : Z;
  point_price : Q;
  is_sale : bool;
  point_store_id : option string
}.

(** [ProductDetails(Product)]: the fields of [Product] and three more. *)
Record ProductDetails : Type := {
  product : Product;
  price_history : list PriceHistoryPoint;
  available_stores : list (gmap string pyval);
  price_range : option (gmap string Q)
}.

Definition price_trend (self : ProductDetails) : outcome string :=
  if (Z.of_nat (length (price_history self)) <? 2)%Z then mret "stable"
  else
    recent ← from_end (price_history self) 1;
    previous ← from_end (price_history self) 2;
    if Qltb (point_price previous) (point_price recent) then mret "up"
    else if Qltb (point_price recent) (point_price previous) then mret "down"
    else mret "stable".

End Models.

(** ** [code/test_serp.py] *)

Module Serp.

(** The environment of the script: the variables of the process, and what
    [GoogleSearch(params).get_dict()] answers or raises for the
    parameters. *)
Record serp_world : Type := {
  getenv : string -> option string;
  get_dict : gmap string pyval -> outcome pyval
}.

(** [os.getenv(name)] as a value: the text, or [None] *)
Definition os_getenv (sw : serp_world) (name : string) : pyval :=
  match getenv sw name with Some v => VStr v | None => VNone end.

(** The [params] dict of [search_google_shopping]; the [radius] argument
    is not part of it. *)
Definition shopping_params (sw : serp_world) (query zip_code : string)
  : gmap string pyval :=
  <["api_key" := os_getenv sw "SERP_API_KEY"]>
    (<["gl" := VStr "us"]>
       (<["hl" := VStr "en"]>
          (<["location" := VStr (zip_code +:+ ", United States")]>
             (<["q" := VStr query]>
                (<["engine" := VStr "google_shopping"]> ∅))))).

(** The result, and the lines printed. *)
Definition search_google_shopping (sw : serp_world)
    (query zip_code : string) (radius : Z) : outcome pyval * list string :=
  let params := shopping_params sw query zip_code in
  match get_dict sw params with
  | Ok results => (Ok results, [])
  | Raise e =>
      (Ok (VDict ∅), ["Error searching Google Shopping: " +:+ exc_message e])
  end.

(** The [params] dict of [search_local_stores] *)
Definition local_params (sw : serp_world) (query location : string)
  : gmap string pyval :=
  <["api_key" := os_getenv sw "SERP_API_KEY"]>
    (<["gl" := VStr "us"]>
       (<["hl" := VStr "en"]>
          (<["location" := VStr (location +:+ ", United States")]>
             (<["q" := VStr (query +:+ " near " +:+ location)]>
                (<["engine" := VStr "google"]> ∅))))).

Definition search_local_stores (sw : serp_world)
    (query location : string) (radius : Z) : outcome pyval * list string :=
  let params := local_params sw query location in
  match get_dict sw params with
  | Ok results => (Ok results, [])
  | Raise e =>
      (Ok (VDict ∅), ["Error searching local stores: " +:+ exc_message e])
  end.

(** [len(results.get(key, []))], the count the script prints *)
Definition count_results (results : pyval) (key : string) : outcome Z :=
  match results with
  | VDict d => len (get d key (VList []))
  | _ => Raise (AttributeError "object has no attribute 'get'")
  end.

End Serp.

(** ** More vocabulary *)

Module Spec2.

(** The text of [n] separators. *)
Fixpoint slashes (n : nat) : string :=
  match n with
  | O => ""
  | S n' => String "/" (slashes n')
  end.

Definition with_base_url (self : DealScoutAPI) (url : string) : DealScoutAPI :=
  {| api_key := api_key self; base_url := url; session := session self |}.


(** The severity of a log record. *)
Definition is_warning (r : log_record) : bool :=
  match r with LogWarning _ => true | _ => false end.
Definition is_error (r : log_record) : bool :=
  match r with LogError _ => true | _ => false end.

(** The exception a failing call ends with, if it fails. *)
Definition failure_of (o : outcome response) : option exc :=
  match o with
  | Raise e => Some e
  | Ok r =>
      match raise_for_status r, json r with
      | Raise e, _ => Some e
      | Ok _, Raise e => Some e
      | Ok _, Ok _ => None
      end
  end.

End Spec2.
Export Spec2.

(** ** More concrete scenarios *)

Module Scenario2.

Definition milk : deal :=
  {[ "product_name" := VStr "Whole Milk"; "category" := VStr "Dairy";
     "price" := VFloat 4.99; "discount_percent" := VInt 17 ]}.
Definition eggs : deal :=
  {[ "product_name" := VStr "Brown Eggs"; "category" := VStr "Dairy";
     "price" := VFloat 3.49; "discount_percent" := VInt 30 ]}.
(** A deal without a category. *)
Definition beef : deal :=
  {[ "product_name" := VStr "Ground Beef";
     "price" := VFloat 5.99; "discount_percent" := VInt 17 ]}.

Definition shelf : list deal := [milk; eggs; beef].

Definition alert : Models.PriceAlert :=
  {| Models.alert_id := "a1"; Models.alert_product_id := "p1";
     Models.alert_product_name := "Whole Milk";
     Models.target_price := 4; Models.current_price := 5;
     Models.is_active := true; Models.created_at := 0;
     Models.last_triggered := None |}.

Definition point (p : Q) : Models.PriceHistoryPoint :=
  {| Models.date := 0; Models.point_price := p; Models.is_sale := false;
     Models.point_store_id := None |}.

Definition some_product : Models.Product :=
  {| Models.id := "p1"; Models.name := "Whole Milk"; Models.brand := None;
     Models.description := None; Models.category := None;
     Models.image_url := None; Models.upc := None; Models.price := 4.99;
     Models.original_price := None; Models.unit_price := None;
     Models.unit := None; Models.store_id := "HEB-123";
     Models.store_name := "HEB"; Models.is_on_sale := false;
     Models.sale_ends := None; Models.discount_percent := None |}.

(** A search service that is down, and no API key in the environment. *)
Definition serp_down : Serp.serp_world :=
  {| Serp.getenv := fun _ => None;
     Serp.get_dict := fun _ => Raise (OtherException "service unavailable") |}.

End Scenario2.
Export Scenario2.

(** The sort keys of a literal deal are numbers. *)
Ltac literal_numeric :=
  intros key v Hk Hv;
  apply elem_of_cons in Hk as [-> | Hk];
    [|apply elem_of_cons in Hk as [-> | Hk];
      [|apply list_elem_of_singleton in Hk as ->]];
  vm_compute in Hv; first [discriminate | injection Hv as <-; by eexists].


(** * Properties *)

(** ** The model on concrete inputs *)

Example deals_key_austin :
  deals_key "78704" 5 (Some ["Walmart"; "HEB"]) = "deals_78704_5_HEB_Walmart".
Proof. vm_compute. reflexivity. Qed.

Example deals_key_no_chains :
  deals_key "78704" 5 None = "deals_78704_5_" /\
  deals_key "78704" 5 (Some []) = "deals_78704_5_".
Proof. split; vm_compute; reflexivity. Qed.

Example url_of_client0 :
  url_of client0 "/deals/today"
  = "https://api.dealscout.example.com/v1/deals/today".
Proof. vm_compute. reflexivity. Qed.

Example lower_mixed :
  lower (Lowering := ascii_lowering) "Whole MILK 1-Gallon" = "whole milk 1-gallon".
Proof. reflexivity. Qed.

Example contains_inside :
  contains "milk" "organic whole milk - 1 gallon" = true /\
  contains "milk" "large brown eggs" = false /\
  contains "" "" = true.
Proof. repeat split; reflexivity. Qed.

Example first_request_of_fresh_client :
  (get_todays_deals (upstream one_deal 0) default_settings client0
     "78704" 5 (Some ["HEB"; "Walmart"]) fresh).1 = Ok one_deal /\
  (get_todays_deals unreachable default_settings client0
     "78704" 5 (Some ["HEB"; "Walmart"]) fresh).1 = Ok VNone.
Proof. split; vm_compute; reflexivity. Qed.

Example best_value_of_sample :
  (fun l => (fun d : deal => d !! "id") <$> l) <$> sort_deals "Best Value" get_mock_deals
  = Ok (Some <$> [VStr "6"; VStr "5"; VStr "2"; VStr "4"; VStr "3"; VStr "1"]).
Proof. vm_compute. reflexivity. Qed.

(** ** The transport boundary *)

Section Transport.
Context (w : world) (settings : Settings) (self : DealScoutAPI).

Lemma seen_fails o : transport_fails o -> seen o = VNone.
Proof.
  destruct o as [r|e]; simpl; [|done].
  intros [[e ->]|[e ->]]; [done|]. by destruct (raise_for_status r).
Qed.

Lemma seen_succeeds o v : transport_succeeds o v -> seen o = v.
Proof. intros (r & -> & Hs & Hj). simpl. by rewrite Hs, Hj. Qed.

(** One run of [_request]: it always returns, the value is [seen] of the
    session's answer, one request is appended to the history, and the
    cache and the clock are not touched. *)
Lemma _request_run method endpoint kw st :
  exists lg,
    _request w self method endpoint kw st =
    (Ok (seen (session_request w (length (sent st)) (wire self method endpoint kw))),
     {| cache := cache st; ticks := ticks st;
        sent := sent st ++ [wire self method endpoint kw];
        log := log st ++ lg |}).
Proof.
  unfold _request, try_except, session_call, lift, logger, wire,
    mbind, M_bind, mret, M_ret; simpl.
  destruct (session_request w _ _) as [r|e]; simpl.
  - destruct (raise_for_status r) as [[]|e]; simpl.
    + destruct (json r) as [v|e]; simpl.
      * eexists [_]. reflexivity.
      * destruct (is_RequestException e); simpl;
          eexists [_; _]; rewrite <- app_assoc; reflexivity.
    + destruct (is_RequestException e); simpl;
        eexists [_; _]; rewrite <- app_assoc; reflexivity.
  - destruct (is_RequestException e); simpl;
      eexists [_; _]; rewrite <- app_assoc; reflexivity.
Qed.

(** C3.  [_request] never raises: for every method, endpoint and keyword
    arguments, in every state and whatever the session does, it returns a
    value; and when the session raises (network failure, retries
    exhausted), [raise_for_status] raises (error status) or [json] raises
    (malformed body), that value is [None]. *)
Theorem request_never_raises method endpoint kw st :
  (exists v, (_request w self method endpoint kw st).1 = Ok v) /\
  (transport_fails
     (session_request w (length (sent st)) (wire self method endpoint kw)) ->
   (_request w self method endpoint kw st).1 = Ok VNone).
Proof.
  destruct (_request_run method endpoint kw st) as [lg ->]; simpl.
  split; [eauto|]. intros Hf. by rewrite (seen_fails _ Hf).
Qed.

(** C9.  [delete_alert] issues its DELETE request and returns [True],
    whatever the session answers. *)
Theorem delete_alert_reports_success alert_id st :
  (delete_alert w self alert_id st).1 = Ok true /\
  sent (delete_alert w self alert_id st).2 =
    (sent st ++ [wire self "DELETE" ("alerts/" +:+ alert_id) no_kwargs])%list.
Proof.
  unfold delete_alert, mbind, M_bind.
  destruct (_request_run "DELETE" ("alerts/" +:+ alert_id) no_kwargs st) as [lg ->].
  by simpl.
Qed.

Lemma get_user_alerts_run st :
  (get_user_alerts w self st).1 =
    Ok (seen (session_request w (length (sent st)) (wire self "GET" "alerts" no_kwargs)))
  /\ cache (get_user_alerts w self st).2 = cache st.
Proof.
  unfold get_user_alerts.
  by destruct (_request_run "GET" "alerts" no_kwargs st) as [lg ->].
Qed.

(** C10.  An empty alerts list that a successful call brings back is what
    [get_user_alerts] returns: the empty list, not sample data; the cache
    is not involved. *)
Theorem empty_alerts_pass_through st :
  transport_succeeds
    (session_request w (length (sent st)) (wire self "GET" "alerts" no_kwargs))
    (VList []) ->
  (get_user_alerts w self st).1 = Ok (VList []) /\
  cache (get_user_alerts w self st).2 = cache st.
Proof.
  intros Hs. destruct (get_user_alerts_run st) as [-> ->].
  by rewrite (seen_succeeds _ _ Hs).
Qed.

End Transport.

(** ** The request cache *)

Lemma Qltb_lt x y : Qltb x y = true <-> (x < y)%Q.
Proof. unfold Qltb, Qlt. apply Z.ltb_lt. Qed.

Lemma Qltb_ge x y : Qltb x y = false <-> (y <= x)%Q.
Proof. unfold Qltb, Qle. apply Z.ltb_ge. Qed.

Section Cache.
Context (w : world) (settings : Settings).

Lemma _get_cached_run key st :
  _get_cached w settings key st =
  match cache st !! key with
  | Some (value, timestamp) =>
      if Qltb (clock w (ticks st) - timestamp) (inject_Z (CACHE_TTL settings))
      then (Ok value, advance st)
      else (Ok VNone, set_cache_field (delete key (cache st)) (advance st))
  | None => (Ok VNone, st)
  end.
Proof.
  unfold _get_cached, get_cache, put_cache, time_time, mbind, M_bind, mret, M_ret.
  destruct (cache st !! key) as [[value timestamp]|]; [|done].
  by destruct (Qltb _ _).
Qed.

Lemma _set_cache_run key value st :
  _set_cache w key value st =
  (Ok tt, set_cache_field (<[key := (value, clock w (ticks st))]> (cache st))
            (advance st)).
Proof. reflexivity. Qed.

(** C6.  After [_set_cache k v], a [_get_cached k] whose clock reading is
    less than the TTL later returns [v]; and whenever the entry under [k]
    has reached the age TTL, [_get_cached k] removes it from the cache and
    returns the miss signal [None]. *)
Theorem cache_set_get_ttl k v st :
  let st1 := (_set_cache w k v st).2 in
  ((clock w (ticks st1) - clock w (ticks st) < inject_Z (CACHE_TTL settings))%Q ->
   (_get_cached w settings k st1).1 = Ok v) /\
  (forall st2 v2 ts,
     cache st2 !! k = Some (v2, ts) ->
     (inject_Z (CACHE_TTL settings) <= clock w (ticks st2) - ts)%Q ->
     (_get_cached w settings k st2).1 = Ok VNone /\
     cache (_get_cached w settings k st2).2 = delete k (cache st2) /\
     cache (_get_cached w settings k st2).2 !! k = None).
Proof.
  intros st1. split.
  - intros Hage. rewrite _get_cached_run. subst st1.
    rewrite _set_cache_run in *. simpl in *.
    rewrite lookup_insert_eq. apply Qltb_lt in Hage. by rewrite Hage.
  - intros st2 v2 ts Hin Hold. rewrite _get_cached_run, Hin.
    apply Qltb_ge in Hold. rewrite Hold. simpl.
    by rewrite lookup_delete_eq.
Qed.

End Cache.

(** ** The cached reads *)

Section CachedReads.
Context (w : world) (settings : Settings) (self : DealScoutAPI).

Lemma run_cached_read c :
  exists method endpoint kw,
    wire_of self c = wire self method endpoint kw /\
    run w settings self c =
    cached_read w settings self (fingerprint c) method endpoint kw.
Proof. destruct c; do 3 eexists; split; reflexivity. Qed.

(** The network path of a cached read: one request, whose result is
    stored under the key with the time of storing, and returned. *)
Lemma network_path key method endpoint kw st :
  let data := seen (session_request w (length (sent st))
                      (wire self method endpoint kw)) in
  exists st',
    (data' ← _request w self method endpoint kw;
     _set_cache w key data' ;; mret data') st = (Ok data, st') /\
    sent st' = (sent st ++ [wire self method endpoint kw])%list /\
    cache st' !! key = Some (data, clock w (ticks st)).
Proof.
  intros data. unfold mbind at 1. unfold M_bind.
  destruct (_request_run w self method endpoint kw st) as [lg ->].
  fold data. unfold mbind, M_bind. rewrite _set_cache_run. simpl.
  eexists. split; [reflexivity|]. simpl. by rewrite lookup_insert_eq.
Qed.

Lemma cached_read_run key method endpoint kw st :
  let net := (data ← _request w self method endpoint kw;
              _set_cache w key data ;; mret data) in
  cached_read w settings self key method endpoint kw st =
  match cache st !! key with
  | Some (v, ts) =>
      if Qltb (clock w (ticks st) - ts) (inject_Z (CACHE_TTL settings))
      then if truthy v then (Ok v, advance st) else net (advance st)
      else net (set_cache_field (delete key (cache st)) (advance st))
  | None => net st
  end.
Proof.
  intros net. unfold cached_read. unfold mbind at 1. unfold M_bind at 1.
  rewrite _get_cached_run.
  destruct (cache st !! key) as [[v ts]|]; [|done].
  destruct (Qltb _ _); [|done]. by destruct (truthy v).
Qed.

(** C1, as the code has it.  A cached read computes the fingerprint and
    asks the cache.  On a hit within the TTL whose stored value is truthy
    it returns that value and sends nothing.  In every other case (nothing
    stored, entry expired, or the stored value is [None], empty or
    otherwise falsy) it sends one request, stores the raw result, [None]
    included, under the fingerprint, and returns it. *)
Theorem cached_read_protocol c st :
  (forall v, cache_hit w settings st (fingerprint c) v -> truthy v = true ->
     (run w settings self c st).1 = Ok v /\
     sent (run w settings self c st).2 = sent st /\
     cache (run w settings self c st).2 = cache st)
  /\
  ((forall v, cache_hit w settings st (fingerprint c) v -> truthy v = false) ->
     let data := seen (session_request w (length (sent st)) (wire_of self c)) in
     (run w settings self c st).1 = Ok data /\
     sent (run w settings self c st).2 = (sent st ++ [wire_of self c])%list /\
     exists ts, cache (run w settings self c st).2 !! fingerprint c = Some (data, ts)).
Proof.
  destruct (run_cached_read c) as (method & endpoint & kw & -> & ->).
  rewrite cached_read_run. split.
  - intros v (ts & -> & Hage) Htrue. apply Qltb_lt in Hage.
    by rewrite Hage, Htrue.
  - intros Hfalsy data.
    destruct (cache st !! fingerprint c) as [[v ts]|] eqn:Hc.
    + destruct (Qltb _ _) eqn:Hage.
      * rewrite (Hfalsy v) by (exists ts; by rewrite <- Qltb_lt).
        destruct (network_path (fingerprint c) method endpoint kw (advance st))
          as (st' & -> & Hsent & Hcache).
        simpl. eauto.
      * destruct (network_path (fingerprint c) method endpoint kw
                    (set_cache_field (delete (fingerprint c) (cache st)) (advance st)))
          as (st' & -> & Hsent & Hcache).
        simpl. eauto.
    + destruct (network_path (fingerprint c) method endpoint kw st)
        as (st' & -> & Hsent & Hcache).
      simpl. eauto.
Qed.

End CachedReads.

(** *** Instances, and where the cache protocol of the design fails *)

Lemma request_never_raises_witness :
  transport_fails
    (session_request unreachable (length (sent fresh))
       (wire client0 "GET" "deals/today" no_kwargs)) /\
  (_request unreachable client0 "GET" "deals/today" no_kwargs fresh).1 = Ok VNone.
Proof.
  split; [exact I|].
  apply (request_never_raises unreachable client0 "GET" "deals/today" no_kwargs fresh).
  exact I.
Defined.

Lemma empty_alerts_pass_through_witness :
  (get_user_alerts (upstream (VList []) 0) client0 fresh).1 = Ok (VList []) /\
  cache (get_user_alerts (upstream (VList []) 0) client0 fresh).2 = cache fresh.
Proof.
  apply (empty_alerts_pass_through (upstream (VList []) 0) client0 fresh).
  eexists. repeat split; reflexivity.
Defined.

Lemma cache_set_get_ttl_witness :
  (_get_cached (upstream VNone 0) default_settings "k"
     (_set_cache (upstream VNone 0) "k" (VInt 1) fresh).2).1 = Ok (VInt 1) /\
  (_get_cached (upstream VNone 4000) default_settings "k" (holding "k" (VInt 1))).1
    = Ok VNone.
Proof.
  split.
  - apply (proj1 (cache_set_get_ttl (upstream VNone 0) default_settings
                    "k" (VInt 1) fresh)).
    vm_compute. reflexivity.
  - refine (proj1 (proj2 (cache_set_get_ttl (upstream VNone 4000) default_settings
                            "k" (VInt 1) fresh)
                     (holding "k" (VInt 1)) (VInt 1) 0%Q _ _)).
    + reflexivity.
    + vm_compute. discriminate.
Defined.

Lemma cached_read_protocol_witness :
  (run (upstream VNone 10) default_settings client0 austin_deals
     (holding (fingerprint austin_deals) one_deal)).1 = Ok one_deal /\
  (run (upstream one_deal 10) default_settings client0 austin_deals fresh).1
    = Ok one_deal.
Proof.
  split.
  - apply (proj1 (cached_read_protocol (upstream VNone 10) default_settings client0
                    austin_deals (holding (fingerprint austin_deals) one_deal))).
    + exists 0%Q. split; vm_compute; reflexivity.
    + reflexivity.
  - apply (proj2 (cached_read_protocol (upstream one_deal 10) default_settings client0
                    austin_deals fresh)).
    intros v (ts & Hin & _). vm_compute in Hin. discriminate.
Defined.

(** C1 as the design states it fails.  The cache holds the empty list
    (respectively [None]) under the fingerprint, stored 10 seconds ago with
    a TTL of 3600: a hit within the TTL.  The read does not return the
    stored value without a network call: it sends the request and returns
    what the upstream answers. *)
Lemma stored_empty_is_refetched :
  cache_hit (upstream one_deal 10) default_settings
    (holding (fingerprint austin_deals) (VList [])) (fingerprint austin_deals)
    (VList []) /\
  (run (upstream one_deal 10) default_settings client0 austin_deals
     (holding (fingerprint austin_deals) (VList []))).1 = Ok one_deal /\
  sent (run (upstream one_deal 10) default_settings client0 austin_deals
          (holding (fingerprint austin_deals) (VList []))).2
    = [wire_of client0 austin_deals] /\
  cache_hit (upstream one_deal 10) default_settings
    (holding (fingerprint austin_deals) VNone) (fingerprint austin_deals) VNone /\
  (run (upstream one_deal 10) default_settings client0 austin_deals
     (holding (fingerprint austin_deals) VNone)).1 = Ok one_deal /\
  sent (run (upstream one_deal 10) default_settings client0 austin_deals
          (holding (fingerprint austin_deals) VNone)).2
    = [wire_of client0 austin_deals].
Proof.
  repeat split; try (exists 0%Q; split); vm_compute; reflexivity.
Qed.

(** ** The fallback to the sample deals *)

(** C2.  When [get_todays_deals] hands back [None] or the empty list,
    [load_deals] returns the six sample deals together with the count 6;
    and the average-discount metric over them is
    (17+30+25+25+31+33)/6, which shows as 26.8 at one decimal. *)
Theorem fallback_to_sample_deals w settings client zip_code radius chains st :
  (get_todays_deals w settings client zip_code radius (Some chains) st).1 = Ok VNone \/
  (get_todays_deals w settings client zip_code radius (Some chains) st).1 = Ok (VList []) ->
  (load_deals w settings (Some client) zip_code radius chains st).1
    = Ok (of_deals get_mock_deals, 6%Z) /\
  length get_mock_deals = 6%nat /\
  exists avg,
    avg_savings (of_deals get_mock_deals) = Ok avg /\
    (avg == (17 + 30 + 25 + 25 + 31 + 33) / 6)%Q /\
    (26.75 <= avg)%Q /\ (avg < 26.85)%Q.
Proof.
  intros Hup. split; [|split; [reflexivity|]].
  - unfold load_deals, try_except. unfold mbind at 1. unfold M_bind at 1.
    unfold try_except. unfold mbind at 1. unfold M_bind at 1.
    destruct (get_todays_deals _ _ _ _ _ _ st) as [o st1]. simpl in Hup.
    destruct Hup as [-> | ->]; reflexivity.
  - exists (161 # 6)%Q. split; [vm_compute; reflexivity|].
    split; [reflexivity|]. split; vm_compute; [discriminate | reflexivity].
Qed.

Lemma fallback_to_sample_deals_witness :
  (load_deals unreachable default_settings (Some client0) "78704" 5
     ["HEB"; "Walmart"] fresh).1 = Ok (of_deals get_mock_deals, 6%Z).
Proof.
  apply (fallback_to_sample_deals unreachable default_settings client0 "78704" 5
           ["HEB"; "Walmart"] fresh).
  left. vm_compute. reflexivity.
Defined.

(** ** The stable sort *)

Section StableSortFacts.
Context {A K : Type} (key : A -> K) (before : K -> K -> bool).

Hypothesis before_asym : forall a b, before a b = true -> before b a = false.
Hypothesis before_trans :
  forall a b c, before b a = false -> before c b = false -> before c a = false.

Lemma insert_stable_Permutation x l :
  insert_stable key before x l ≡ₚ x :: l.
Proof.
  induction l as [|y l IH]; simpl; [done|].
  destruct (before (key y) (key x)); [|done].
  rewrite IH. apply Permutation_swap.
Qed.

Lemma sort_stable_Permutation l : sort_stable key before l ≡ₚ l.
Proof.
  induction l as [|x l IH]; simpl; [done|].
  by rewrite insert_stable_Permutation, IH.
Qed.

Lemma insert_stable_sorted x l :
  StronglySorted (ordered_by key before) l ->
  StronglySorted (ordered_by key before) (insert_stable key before x l).
Proof.
  induction 1 as [|y l Hl IH Hy]; simpl.
  - repeat constructor.
  - destruct (before (key y) (key x)) eqn:Hyx.
    + constructor; [done|].
      rewrite insert_stable_Permutation. constructor; [|done].
      unfold ordered_by. auto.
    + constructor; [by constructor|]. constructor; [done|].
      eapply Forall_impl; [exact Hy|]. unfold ordered_by. eauto.
Qed.

Lemma sort_stable_sorted l :
  StronglySorted (ordered_by key before) (sort_stable key before l).
Proof.
  induction l as [|x l IH]; simpl; [constructor|].
  by apply insert_stable_sorted.
Qed.




End StableSortFacts.


(** Sorting by a key computed up front is sorting by the key. *)
Lemma sort_decorated {A K} (kf : A -> K) (before : K -> K -> bool) (l : list A) :
  snd <$> sort_stable fst before ((fun x => (kf x, x)) <$> l)
  = sort_stable kf before l.
Proof.
  assert (Hins : forall x l',
    insert_stable fst before (kf x, x) ((fun y => (kf y, y)) <$> l')
    = (fun y => (kf y, y)) <$> insert_stable kf before x l').
  { intros x l'. induction l' as [|y l' IH]; simpl; [done|].
    destruct (before (kf y) (kf x)); [|done].
    rewrite fmap_cons. f_equal. apply IH. }
  assert (Hsort : sort_stable fst before ((fun x => (kf x, x)) <$> l)
                  = (fun y => (kf y, y)) <$> sort_stable kf before l).
  { induction l as [|x l IH]; [done|].
    rewrite fmap_cons.
    change (sort_stable fst before ((kf x, x) :: ((fun y => (kf y, y)) <$> l)))
      with (insert_stable fst before (kf x, x)
              (sort_stable fst before ((fun y => (kf y, y)) <$> l))).
    rewrite IH. apply Hins. }
  rewrite Hsort, <- list_fmap_compose. clear Hsort.
  induction (sort_stable kf before l) as [|x l' IH]; [done|].
  rewrite fmap_cons. simpl. f_equal. exact IH.
Qed.

Lemma list_sort_total {K} (key : deal -> outcome K) (kf : deal -> K)
    (ltb : K -> K -> bool) (reverse : bool) (l : list deal) :
  Forall (fun x => key x = Ok (kf x)) l ->
  list_sort key ltb reverse l
  = Ok (sort_stable kf (if reverse then (fun a b => ltb b a) else ltb) l).
Proof.
  intros Hl. unfold list_sort.
  assert (Hm : mapM (fun x => k ← key x; mret (k, x)) l
               = Ok ((fun x => (kf x, x)) <$> l)).
  { induction Hl as [|x l Hx Hl IH]; simpl; [done|].
    rewrite Hx. simpl. rewrite IH. done. }
  rewrite Hm. simpl. unfold mret, outcome_ret. f_equal. apply sort_decorated.
Qed.

(** ** The orders of the sort keys *)

Lemma string_compare_le_trans a b c :
  String.compare a b <> Gt -> String.compare b c <> Gt -> String.compare a c <> Gt.
Proof.
  revert b c. induction a as [|x a IH]; intros [|y b] [|z c]; simpl; try done.
  unfold Ascii.compare.
  destruct (N.compare_spec (N_of_ascii x) (N_of_ascii y)) as [Hxy|Hxy|Hxy],
           (N.compare_spec (N_of_ascii y) (N_of_ascii z)) as [Hyz|Hyz|Hyz],
           (N.compare_spec (N_of_ascii x) (N_of_ascii z)) as [Hxz|Hxz|Hxz];
    try done; try lia; eauto.
Qed.

Lemma string_ltb_false a b : String.ltb a b = false <-> String.compare b a <> Gt.
Proof.
  unfold String.ltb. rewrite (String.compare_antisym b a).
  destruct (String.compare a b); simpl; split; done.
Qed.

Lemma string_ltb_asym a b : String.ltb a b = true -> String.ltb b a = false.
Proof.
  unfold String.ltb. rewrite (String.compare_antisym a b).
  by destruct (String.compare b a).
Qed.

Lemma string_ltb_trans a b c :
  String.ltb b a = false -> String.ltb c b = false -> String.ltb c a = false.
Proof. rewrite !string_ltb_false. apply string_compare_le_trans. Qed.

Lemma string_ltb_antisym a b :
  String.ltb b a = false -> String.ltb a b = false -> a = b.
Proof.
  unfold String.ltb. rewrite (String.compare_antisym a b).
  destruct (String.compare b a) eqn:Hc; simpl; try done.
  intros _ _. symmetry. by apply String.compare_eq_iff.
Qed.

Lemma sorted_Permutation (l : list string) : sorted l ≡ₚ l.
Proof. apply sort_stable_Permutation. Qed.

(** [sorted] sees the elements, not their order. *)
Lemma sorted_unique (l1 l2 : list string) : l1 ≡ₚ l2 -> sorted l1 = sorted l2.
Proof.
  intros Hp.
  eapply (StronglySorted_unique_strong (fun x y => String.ltb y x = false)).
  - intros x y _ _. apply string_ltb_antisym.
  - apply (sort_stable_sorted (fun s => s) String.ltb);
      [apply string_ltb_asym | apply string_ltb_trans].
  - apply (sort_stable_sorted (fun s => s) String.ltb);
      [apply string_ltb_asym | apply string_ltb_trans].
  - by rewrite !sorted_Permutation.
Qed.


Lemma num_ltb_asym a b : num_ltb a b = true -> num_ltb b a = false.
Proof.
  destruct a as [x|], b as [y|]; simpl; try done.
  rewrite Qltb_lt, Qltb_ge. apply Qlt_le_weak.
Qed.

Lemma num_ltb_trans a b c :
  num_ltb b a = false -> num_ltb c b = false -> num_ltb c a = false.
Proof.
  destruct a as [x|], b as [y|], c as [z|]; simpl; try done.
  rewrite !Qltb_ge. apply Qle_trans.
Qed.

Lemma Qgtb_asym (a b : Q) : Qltb b a = true -> Qltb a b = false.
Proof. rewrite Qltb_lt, Qltb_ge. apply Qlt_le_weak. Qed.

Lemma Qgtb_trans (a b c : Q) :
  Qltb a b = false -> Qltb b c = false -> Qltb a c = false.
Proof. rewrite !Qltb_ge. intros. by apply Qle_trans with b. Qed.

Lemma pair_ltb_true a b :
  pair_ltb a b = true <-> (a.1 < b.1 \/ (a.1 == b.1 /\ a.2 < b.2))%Q.
Proof.
  unfold pair_ltb.
  rewrite orb_true_iff, andb_true_iff, !Qltb_lt, Qeq_bool_iff. tauto.
Qed.

Lemma pair_ltb_false a b : pair_ltb a b = false <-> lex_le b a.
Proof.
  unfold lex_le. rewrite <- not_true_iff_false, pair_ltb_true.
  destruct a as [a1 a2], b as [b1 b2]; simpl.
  destruct (Qlt_le_dec a1 b1), (Qlt_le_dec b1 a1), (Qlt_le_dec a2 b2);
    split; intros; lra.
Qed.

Lemma pair_gtb_asym a b : pair_ltb b a = true -> pair_ltb a b = false.
Proof.
  rewrite pair_ltb_false, pair_ltb_true. unfold lex_le.
  destruct a as [a1 a2], b as [b1 b2]; simpl. lra.
Qed.

Lemma pair_gtb_trans a b c :
  pair_ltb a b = false -> pair_ltb b c = false -> pair_ltb a c = false.
Proof.
  rewrite !pair_ltb_false. unfold lex_le.
  destruct a as [a1 a2], b as [b1 b2], c as [c1 c2]; simpl. lra.
Qed.

(** ** Fingerprints and the order of the chains *)

(** C7.  For every zip code and radius, two chain lists that are
    permutations of each other give the same fingerprint, for the deals
    operation and for the nearby-stores operation. *)
Theorem fingerprint_order_independent zip_code radius (l1 l2 : list string) :
  l1 ≡ₚ l2 ->
  deals_key zip_code radius (Some l1) = deals_key zip_code radius (Some l2) /\
  stores_key zip_code radius (Some l1) = stores_key zip_code radius (Some l2).
Proof.
  intros Hp. unfold deals_key, stores_key. simpl.
  by rewrite (sorted_unique l1 l2 Hp).
Qed.

Lemma fingerprint_order_independent_witness :
  deals_key "78704" 5 (Some ["HEB"; "Walmart"])
    = deals_key "78704" 5 (Some ["Walmart"; "HEB"]) /\
  stores_key "78704" 5 (Some ["HEB"; "Walmart"])
    = stores_key "78704" 5 (Some ["Walmart"; "HEB"]).
Proof.
  apply (fingerprint_order_independent "78704" 5 ["HEB"; "Walmart"] ["Walmart"; "HEB"]).
  apply Permutation_swap.
Defined.

(** ** The sort step *)

Lemma numeric_field k d :
  numeric_keys d -> k ∈ ["price"; "discount_percent"; "distance"] ->
  forall v, d !! k = Some v -> as_number v = Ok (default 0%Q (number_in v))
                               /\ is_Some (number_in v).
Proof.
  intros Hd Hk v Hv. destruct (Hd k v Hk Hv) as [q Hq].
  split; [|by eexists]. by destruct v.
Qed.

Lemma key_or_inf_total k d :
  numeric_keys d -> k ∈ ["price"; "discount_percent"; "distance"] ->
  key_or_inf k d = Ok (field_or_inf k d).
Proof.
  intros Hd Hk. unfold key_or_inf, field_or_inf.
  destruct (d !! k) as [v|] eqn:Hv; [|done].
  destruct (numeric_field k d Hd Hk v Hv) as [-> [q Hq]].
  simpl. by rewrite Hq.
Qed.

Lemma key_or_0_total k d :
  numeric_keys d -> k ∈ ["price"; "discount_percent"; "distance"] ->
  key_or_0 k d = Ok (field_or_0 k d).
Proof.
  intros Hd Hk. unfold key_or_0, field_or_0, get.
  destruct (d !! k) as [v|] eqn:Hv; [|done].
  destruct (numeric_field k d Hd Hk v Hv) as [-> [q Hq]].
  simpl. by rewrite Hq.
Qed.

Lemma key_best_value_total d :
  numeric_keys d -> key_best_value d = Ok (best_value_pair d).
Proof.
  intros Hd. unfold key_best_value, best_value_pair.
  rewrite !key_or_0_total by (done || set_solver). done.
Qed.









(** ** The filter step *)

Lemma append_cons c s t : String c s +:+ t = String c (s +:+ t).
Proof. reflexivity. Qed.

Lemma append_nil t : "" +:+ t = t.
Proof. reflexivity. Qed.

Lemma prefix_spec q s :
  String.prefix q s = true <-> exists post, s = q +:+ post.
Proof.
  revert s. induction q as [|a q IH]; intros [|b s]; simpl.
  - split; [by exists ""|done].
  - split; [by exists (String b s)|done].
  - split; [done|]. by intros [post ?].
  - destruct (ascii_dec a b) as [-> | Hne].
    + rewrite IH. split; intros [post Hp]; exists post;
        rewrite append_cons in *; congruence.
    + split; [done|]. intros [post Hp]. rewrite append_cons in Hp. congruence.
Qed.

Lemma contains_unfold q s :
  contains q s =
  String.prefix q s ||
  match s with EmptyString => false | String _ s' => contains q s' end.
Proof. by destruct s. Qed.

Lemma contains_spec q s : contains q s = true <-> substring_of q s.
Proof.
  unfold substring_of. split.
  - induction s as [|c s IH]; rewrite contains_unfold, orb_true_iff;
      (intros [Hp|Hr]; [apply prefix_spec in Hp as [post ->]; by exists "", post|]).
    + done.
    + destruct (IH Hr) as (pre & post & ->). by exists (String c pre), post.
  - intros (pre & post & ->). induction pre as [|c pre IH].
    + rewrite contains_unfold, orb_true_iff. left. apply prefix_spec. by exists post.
    + rewrite contains_unfold, orb_true_iff. right. exact IH.
Qed.

Lemma contains_empty_field q : q <> "" -> contains q "" = false.
Proof. by destruct q. Qed.

Lemma existsb_nonempty q l :
  q <> "" ->
  existsb (contains q) (List.filter (fun field => truthy (VStr field)) l)
  = existsb (contains q) l.
Proof.
  intros Hq. induction l as [|f l IH]; [done|].
  cbn [List.filter truthy].
  destruct (String.eqb_spec f "") as [-> | Hf]; cbn [negb existsb].
  - by rewrite contains_empty_field.
  - by rewrite <- IH.
Qed.

Section FilterStep.
Context {L : Lowering}.

Lemma searched_field q d k :
  text_typed d -> k ∈ ["product_name"; "brand"; "category"] -> q <> "" ->
  exists f,
    lower_method (get d k (VStr "")) = Ok f /\
    (contains q f = true <->
     Exists (fun s => substring_of q (lower s)) (text_of d k)).
Proof.
  intros Hd Hk Hq. unfold get, text_of.
  destruct (d !! k) as [v|] eqn:Hv.
  - destruct (Hd k v Hk Hv) as [s ->]. exists (lower s). split; [done|].
    rewrite contains_spec, Exists_cons, Exists_nil. tauto.
  - exists (lower ""). split; [done|].
    rewrite (proj2 (lower_empty "") eq_refl), contains_empty_field by done.
    rewrite Exists_nil. split; done.
Qed.

Lemma any_field_spec q d :
  text_typed d -> q <> "" ->
  exists b,
    any_field q d = Ok b /\
    (b = true <-> Exists (fun s => substring_of q (lower s)) (text_fields d)).
Proof.
  intros Hd Hq. unfold any_field, text_fields.
  destruct (searched_field q d "product_name" Hd) as (f1 & E1 & H1);
    [by repeat constructor|done|].
  destruct (searched_field q d "brand" Hd) as (f2 & E2 & H2);
    [by repeat constructor|done|].
  destruct (searched_field q d "category" Hd) as (f3 & E3 & H3);
    [by repeat constructor|done|].
  rewrite E1, E2, E3.
  eexists. split; [reflexivity|].
  rewrite existsb_nonempty by done. cbn [existsb].
  rewrite !orb_true_iff, !Exists_app, H1, H2, H3. intuition congruence.
Qed.

Lemma category_test category_filter (d : deal) :
  negb (String.eqb category_filter "All")
  && differs_from (get1 d "category") category_filter = false
  <-> category_filter = "All" \/ d !! "category" = Some (VStr category_filter).
Proof.
  unfold get1, get.
  destruct (String.eqb_spec category_filter "All") as [-> | Hall]; simpl.
  - split; auto.
  - destruct (d !! "category") as [v|]; simpl.
    + destruct v; simpl; try (split; [done|intros [?|?]; congruence]).
      destruct (String.eqb_spec s category_filter) as [-> | Hs]; simpl.
      * split; auto.
      * split; [done|]. intros [?|?]; congruence.
    + split; [done|]. intros [?|?]; congruence.
Qed.

Lemma keeps_spec typed category_filter d :
  text_typed d ->
  exists b,
    keeps (quick_search typed) category_filter d = Ok b /\
    (b = true <-> wanted typed category_filter d).
Proof.
  intros Hd. unfold keeps, wanted, quick_search.
  pose proof (category_test category_filter d) as Hcat.
  destruct (negb (String.eqb category_filter "All")
            && differs_from (get1 d "category") category_filter) eqn:Hc.
  - assert (Hno : ~ (category_filter = "All"
                     \/ d !! "category" = Some (VStr category_filter)))
      by (rewrite <- Hcat; done).
    clear Hcat. cbn [truthy].
    destruct (String.eqb_spec (lower typed) "") as [He | Hne]; cbn [negb].
    + exists false. split; [done|]. split; [done|]. intros [_ H]. by destruct Hno.
    + destruct (any_field_spec (lower typed) d Hd Hne) as (b & Hb & _).
      rewrite Hb. exists false. split; [by destruct b|].
      split; [done|]. intros [_ H]. by destruct Hno.
  - assert (Hyes : category_filter = "All"
                   \/ d !! "category" = Some (VStr category_filter))
      by (by apply Hcat).
    clear Hcat. cbn [truthy].
    destruct (String.eqb_spec (lower typed) "") as [He | Hne]; cbn [negb].
    + exists true. split; [done|]. apply (proj1 (lower_empty typed)) in He.
      split; [intros _; split; [by left|done]|done].
    + destruct (any_field_spec (lower typed) d Hd Hne) as (b & Hb & Hiff).
      rewrite Hb. exists b. split; [by destruct b|].
      rewrite Hiff. split.
      * intros H. by split; [right|].
      * intros [[He | H] _]; [|done]. by apply (proj2 (lower_empty typed)) in He.
Qed.

(** On text the filter step does what the design asks.  For every
    dataset whose deals hold text in the product name, the brand and the
    category when they hold them at all, every query typed in the
    quick-search box and every category selected, the filter step keeps,
    in order, exactly the deals for which (the query is empty or occurs,
    letter case ignored, in the product name, the brand or the category)
    and (the selector is "All" or is the deal's category).  This holds
    whatever the case tables of [str.lower] are. *)
Theorem filter_keeps_wanted typed category_filter deals :
  Forall text_typed deals ->
  exists kept,
    filtered_deals (quick_search typed) category_filter deals = Ok kept /\
    selects (wanted typed category_filter) deals kept.
Proof.
  intros Hd.
  assert (Hloop : exists kept,
    filter_loop (quick_search typed) category_filter deals = Ok kept /\
    selects (wanted typed category_filter) deals kept).
  { induction Hd as [|d deals Hd Hds (kept & IH & Hsel)].
    - exists []. split; [done|constructor].
    - destruct (keeps_spec typed category_filter d Hd) as (b & Hk & Hb).
      cbn [filter_loop]. rewrite Hk, IH.
      destruct b.
      + exists (d :: kept). split; [done|]. constructor; [by apply Hb|done].
      + exists kept. split; [done|]. apply selects_drop; [|done].
        rewrite <- Hb. done. }
  by destruct deals.
Qed.

End FilterStep.

Lemma mock_deal_text i n b p o d sn si di u c :
  text_typed (mock_deal i n b p o d sn si di u c).
Proof.
  intros key v Hk Hv.
  apply elem_of_cons in Hk as [-> | Hk];
    [|apply elem_of_cons in Hk as [-> | Hk];
      [|apply list_elem_of_singleton in Hk as ->]];
    vm_compute in Hv; injection Hv as <-; by eexists.
Qed.

Lemma mock_deals_text : Forall text_typed get_mock_deals.
Proof.
  unfold get_mock_deals.
  repeat (constructor; [apply mock_deal_text|]). constructor.
Qed.

Lemma filter_keeps_wanted_witness :
  exists kept,
    filtered_deals (L := ascii_lowering)
      (quick_search (L := ascii_lowering) "ORGANIC") "Produce" get_mock_deals
    = Ok kept /\
    selects (wanted (L := ascii_lowering) "ORGANIC" "Produce") get_mock_deals kept.
Proof.
  apply (filter_keeps_wanted (L := ascii_lowering) "ORGANIC" "Produce"
           get_mock_deals).
  exact mock_deals_text.
Defined.

(** C5.  The design has the filter step keep, for every dataset, query
    and category selection, exactly the deals for which (the query is
    empty or occurs, letter case ignored, in the name, the brand or the
    category) and (the selector is "All" or is the deal's category).  The
    code does not: a deal whose brand is JSON [null] and whose name holds
    the query is one this condition keeps, and on it the filter step
    raises, keeping nothing.  [deal.get('brand', '')] defaults a missing
    brand only; the [None] of a present one has no [lower], and the test
    [if field] that would skip it comes after the call. *)
Lemma null_brand_breaks_filter :
  wanted (L := ascii_lowering) "milk" "All"
    {[ "product_name" := VStr "Milk"; "brand" := VNone ]} /\
  filtered_deals (L := ascii_lowering)
    (quick_search (L := ascii_lowering) "milk") "All"
    [ {[ "product_name" := VStr "Milk"; "brand" := VNone ]} ]
  = Raise (AttributeError "object has no attribute 'lower'").
Proof.
  split; [|vm_compute; reflexivity].
  split; [right|by left].
  assert (Ht : text_fields {[ "product_name" := VStr "Milk"; "brand" := VNone ]}
               = ["Milk"]) by (vm_compute; reflexivity).
  rewrite Ht. constructor. by exists "", "".
Qed.

(** ** Fingerprints of distinct requests *)

Lemma delim_free_sep a b : delim_free (a +:+ String "_" b) = false.
Proof.
  induction a as [|c a IH]; [done|].
  rewrite append_cons. simpl. rewrite IH. apply andb_false_r.
Qed.

Lemma split_at_delim a b x y :
  delim_free a = true -> delim_free b = true ->
  a +:+ String "_" x = b +:+ String "_" y -> a = b /\ x = y.
Proof.
  revert b. induction a as [|c a IH]; intros [|c' b] Ha Hb;
    rewrite ?append_cons, ?append_nil; intros H.
  - by simplify_eq.
  - injection H as <- _. by simpl in Hb.
  - injection H as -> _. by simpl in Ha.
  - injection H as -> H. simpl in Ha, Hb.
    apply andb_true_iff in Ha as [_ Ha]. apply andb_true_iff in Hb as [_ Hb].
    destruct (IH b Ha Hb H) as [-> ->]. done.
Qed.

Lemma pretty_N_go_delim_free x s :
  delim_free s = true -> delim_free (pretty_N_go x s) = true.
Proof.
  revert s. induction (N.lt_wf_0 x) as [x _ IH]; intros s Hs.
  destruct (decide (x = 0)%N) as [-> | Hx]; [by rewrite pretty_N_go_0|].
  rewrite pretty_N_go_step by lia.
  apply IH; [apply N.div_lt; lia|].
  simpl. rewrite Hs. unfold pretty_N_char. by repeat case_match.
Qed.

Lemma str_int_delim_free n : delim_free (str_int n) = true.
Proof.
  unfold str_int, pretty, pretty_Z.
  destruct n as [|p|p]; [done| |];
    unfold pretty, pretty_positive, pretty, pretty_N; simpl;
    by apply pretty_N_go_delim_free.
Qed.

Lemma join_two x y r :
  join "_" (x :: y :: r) = x +:+ String "_" (join "_" (y :: r)).
Proof. reflexivity. Qed.

Lemma join_nonempty x l : x <> "" -> join "_" (x :: l) <> "".
Proof.
  intros Hx. destruct l as [|y r]; [done|].
  rewrite join_two. by destruct x.
Qed.

(** On chain names free of the delimiter and not empty, [join] loses
    nothing. *)
Lemma join_inj l1 l2 :
  Forall (fun s => delim_free s = true /\ s <> "") l1 ->
  Forall (fun s => delim_free s = true /\ s <> "") l2 ->
  join "_" l1 = join "_" l2 -> l1 = l2.
Proof.
  intros H1. revert l2.
  induction H1 as [|x l1 [Hx Hxne] H1 IH]; intros l2 H2 Hj.
  - destruct H2 as [|y l2 [Hy Hyne] H2]; [done|].
    symmetry in Hj. by apply join_nonempty in Hj.
  - destruct H2 as [|y l2 [Hy Hyne] H2]; [by apply join_nonempty in Hj|].
    destruct l1 as [|x' r1], l2 as [|y' r2].
    + simpl in Hj. by subst.
    + rewrite join_two in Hj. simpl in Hj. subst x.
      by rewrite delim_free_sep in Hx.
    + rewrite join_two in Hj. simpl in Hj. subst y.
      by rewrite delim_free_sep in Hy.
    + rewrite !join_two in Hj.
      destruct (split_at_delim _ _ _ _ Hx Hy Hj) as [-> Hr].
      f_equal. by apply IH.
Qed.

Lemma plain_sorted l :
  Forall (fun s => delim_free s = true /\ s <> "") l ->
  Forall (fun s => delim_free s = true /\ s <> "") (sorted l).
Proof. by rewrite sorted_Permutation. Qed.

Lemma location_key_inj z1 r1 s1 z2 r2 s2 :
  delim_free z1 = true -> plain_chains s1 ->
  delim_free z2 = true -> plain_chains s2 ->
  z1 +:+ "_" +:+ str_int r1 +:+ "_" +:+ join "_" (sorted (default [] s1))
  = z2 +:+ "_" +:+ str_int r2 +:+ "_" +:+ join "_" (sorted (default [] s2)) ->
  z1 = z2 /\ r1 = r2 /\ default [] s1 ≡ₚ default [] s2.
Proof.
  intros Hz1 Hs1 Hz2 Hs2 H.
  apply (split_at_delim _ _ _ _ Hz1 Hz2) in H as [-> H].
  apply (split_at_delim _ _ _ _ (str_int_delim_free r1) (str_int_delim_free r2))
    in H as [Hr Hj].
  apply (inj pretty) in Hr as ->.
  apply join_inj in Hj; [|by apply plain_sorted..].
  split; [done|]. split; [done|].
  by rewrite <- (sorted_Permutation (default [] s1)), Hj, sorted_Permutation.
Qed.

Lemma fingerprint_inj c1 c2 :
  plain_call c1 -> plain_call c2 ->
  fingerprint c1 = fingerprint c2 -> same_request c1 c2.
Proof.
  destruct c1 as [z1 r1 s1|q1 z1 r1|z1 r1 s1|i1],
           c2 as [z2 r2 s2|q2 z2 r2|z2 r2 s2|i2];
    unfold fingerprint, deals_key, search_key, stores_key, store_key;
    intros H1 H2 H;
    repeat (rewrite append_cons in H; injection H as H);
    rewrite ?append_nil in H; try discriminate; simpl in H1, H2 |- *.
  - destruct H1, H2. by apply location_key_inj.
  - destruct H1 as [Hq1 Hz1], H2 as [Hq2 Hz2].
    apply (split_at_delim _ _ _ _ Hq1 Hq2) in H as [-> H].
    apply (split_at_delim _ _ _ _ Hz1 Hz2) in H as [-> H].
    by apply (inj pretty) in H as ->.
  - destruct H1, H2. by apply location_key_inj.
  - done.
Qed.

(** C8, as the code has it.  The fingerprint is a function of the call.
    Calls of different operations never share a fingerprint; and two calls
    whose text arguments are free of the delimiter character (and whose
    chain names are not empty) have different fingerprints whenever the
    operation, a scalar argument, or the chains as a collection differ. *)
Theorem fingerprints_of_plain_calls_differ c1 c2 :
  plain_call c1 -> plain_call c2 ->
  ~ same_request c1 c2 -> fingerprint c1 <> fingerprint c2.
Proof.
  intros H1 H2 Hne Heq. apply Hne. by apply fingerprint_inj.
Qed.

Lemma fingerprints_of_plain_calls_differ_witness :
  fingerprint (TodaysDeals "78704" 5 (Some ["HEB"; "Walmart"]))
  <> fingerprint (TodaysDeals "78704" 10 (Some ["HEB"; "Walmart"])) /\
  fingerprint (TodaysDeals "78704" 5 (Some ["HEB"]))
  <> fingerprint (NearbyStores "78704" 5 (Some ["HEB"])).
Proof.
  split.
  - apply (fingerprints_of_plain_calls_differ
             (TodaysDeals "78704" 5 (Some ["HEB"; "Walmart"]))
             (TodaysDeals "78704" 10 (Some ["HEB"; "Walmart"]))).
    + split; [reflexivity|]. repeat constructor; discriminate.
    + split; [reflexivity|]. repeat constructor; discriminate.
    + intros (_ & Hr & _). discriminate.
  - apply (fingerprints_of_plain_calls_differ
             (TodaysDeals "78704" 5 (Some ["HEB"]))
             (NearbyStores "78704" 5 (Some ["HEB"]))).
    + split; [reflexivity|]. repeat constructor; discriminate.
    + split; [reflexivity|]. repeat constructor; discriminate.
    + intros [].
Defined.

(** C8 as the design states it fails: two searches that differ in the
    query and in the zip code share one fingerprint, because the
    delimiter may occur inside an argument. *)
Lemma fingerprint_collision :
  ~ same_request (SearchProducts "ice_cream" "78704" 5)
                 (SearchProducts "ice" "cream_78704" 5) /\
  "ice_cream" <> "ice" /\ "78704" <> "cream_78704" /\
  fingerprint (SearchProducts "ice_cream" "78704" 5)
  = fingerprint (SearchProducts "ice" "cream_78704" 5) /\
  search_key "ice_cream" "78704" 5 = "search_ice_cream_78704_5" /\
  search_key "ice" "cream_78704" 5 = "search_ice_cream_78704_5".
Proof.
  split; [intros (Hq & _); discriminate|].
  repeat split; try discriminate; vm_compute; reflexivity.
Qed.

(** * More properties of the client *)

Section ClientFacts.
Context (w : world) (settings : Settings) (self : DealScoutAPI).

(** The network path in full: the state after the request is sent, its
    result stored and returned. *)
Lemma network_path_state key method endpoint kw st :
  let data := seen (session_request w (length (sent st))
                      (wire self method endpoint kw)) in
  exists lg,
    (data' ← _request w self method endpoint kw;
     _set_cache w key data' ;; mret data') st =
    (Ok data,
     {| cache := <[key := (data, clock w (ticks st))]> (cache st);
        ticks := S (ticks st);
        sent := sent st ++ [wire self method endpoint kw];
        log := log st ++ lg |}).
Proof.
  intros data. unfold mbind at 1. unfold M_bind.
  destruct (_request_run w self method endpoint kw st) as [lg ->].
  fold data. unfold mbind, M_bind. rewrite _set_cache_run. simpl.
  by exists lg.
Qed.

(** The two ways a cached read can go. *)
Lemma run_cases c st :
  (exists v ts,
     cache st !! fingerprint c = Some (v, ts) /\
     Qltb (clock w (ticks st) - ts) (inject_Z (CACHE_TTL settings)) = true /\
     truthy v = true /\
     run w settings self c st = (Ok v, advance st))
  \/
  (exists cache0 ticks0 lg,
     (cache0 = cache st \/ cache0 = delete (fingerprint c) (cache st)) /\
     (forall v, cache_hit w settings st (fingerprint c) v -> truthy v = false) /\
     run w settings self c st =
     (Ok (seen (session_request w (length (sent st)) (wire_of self c))),
      {| cache := <[fingerprint c :=
                      (seen (session_request w (length (sent st)) (wire_of self c)),
                       clock w ticks0)]> cache0;
         ticks := S ticks0;
         sent := sent st ++ [wire_of self c];
         log := log st ++ lg |})).
Proof.
  destruct (run_cached_read w settings self c)
    as (method & endpoint & kw & -> & ->).
  rewrite cached_read_run.
  destruct (cache st !! fingerprint c) as [[v ts]|] eqn:Hc.
  - destruct (Qltb _ _) eqn:Hage.
    + destruct (truthy v) eqn:Hv.
      * left. by exists v, ts.
      * right.
        destruct (network_path_state (fingerprint c) method endpoint kw (advance st))
          as [lg ->].
        exists (cache st), (S (ticks st)), lg. split; [by left|]. split; [|done].
        intros v' (ts' & Hv' & _). congruence.
    + right.
      destruct (network_path_state (fingerprint c) method endpoint kw
                  (set_cache_field (delete (fingerprint c) (cache st)) (advance st)))
        as [lg ->].
      exists (delete (fingerprint c) (cache st)), (S (ticks st)), lg.
      split; [by right|]. split; [|done].
      intros v' (ts' & Hv' & Hage'). simplify_eq.
      apply Qltb_lt in Hage'. congruence.
  - right.
    destruct (network_path_state (fingerprint c) method endpoint kw st) as [lg ->].
    exists (cache st), (ticks st), lg. split; [by left|]. split; [|done].
    intros v' (ts' & Hv' & _). congruence.
Qed.

(** The footprint of a cached read.  It never raises; it sends nothing or
    the one request of the call; and it leaves the cache entries of all
    other fingerprints as they were. *)
Theorem cached_read_footprint c st :
  (exists v, (run w settings self c st).1 = Ok v) /\
  (sent (run w settings self c st).2 = sent st \/
   sent (run w settings self c st).2 = (sent st ++ [wire_of self c])%list) /\
  (forall k, k <> fingerprint c ->
     cache (run w settings self c st).2 !! k = cache st !! k).
Proof.
  destruct (run_cases c st)
    as [(v & ts & _ & _ & _ & ->)
       |(cache0 & ticks0 & lg & Hc0 & _ & ->)]; simpl.
  - split; [by eexists|]. split; [by left|done].
  - split; [by eexists|]. split; [by right|].
    intros k Hk. rewrite lookup_insert_ne by done.
    destruct Hc0 as [-> | ->]; [done|]. by rewrite lookup_delete_ne.
Qed.

Lemma same_fingerprint_served c1 c2 st :
  let data := seen (session_request w (length (sent st)) (wire_of self c1)) in
  let st1 := (run w settings self c1 st).2 in
  fingerprint c2 = fingerprint c1 ->
  (forall v, cache_hit w settings st (fingerprint c1) v -> truthy v = false) ->
  truthy data = true ->
  cache_hit w settings st1 (fingerprint c1) data ->
  (run w settings self c2 st1).1 = Ok data /\
  sent (run w settings self c2 st1).2 = (sent st ++ [wire_of self c1])%list.
Proof.
  intros data st1 Hfp Hmiss Hdata (ts & Hin & Hage).
  assert (Hsent : sent st1 = (sent st ++ [wire_of self c1])%list).
  { subst st1.
    destruct (run_cases c1 st)
      as [(v & ts' & Hv & Hfresh & Htrue & _)|(? & ? & ? & _ & _ & ->)]; [|done].
    rewrite (Hmiss v) in Htrue; [done|]. exists ts'. by rewrite <- Qltb_lt. }
  destruct (run_cases c2 st1)
    as [(v & ts' & Hv & _ & _ & ->)|(? & ? & ? & _ & Hmiss2 & _)].
  - rewrite Hfp in Hv. simpl. split; [congruence|done].
  - rewrite Hfp in Hmiss2. rewrite (Hmiss2 data) in Hdata; [done|].
    by exists ts.
Qed.

(** Two reads, one request.  When a read misses the cache and what it
    fetches is truthy, a following read with the same fingerprint made
    while the entry is within the TTL returns the same data and sends
    nothing more, whether or not it asks for the same thing. *)
Theorem second_read_is_served c1 c2 st :
  fingerprint c2 = fingerprint c1 ->
  (forall v, cache_hit w settings st (fingerprint c1) v -> truthy v = false) ->
  truthy (seen (session_request w (length (sent st)) (wire_of self c1))) = true ->
  cache_hit w settings (run w settings self c1 st).2 (fingerprint c1)
    (seen (session_request w (length (sent st)) (wire_of self c1))) ->
  (run w settings self c2 (run w settings self c1 st).2).1
    = Ok (seen (session_request w (length (sent st)) (wire_of self c1))) /\
  sent (run w settings self c2 (run w settings self c1 st).2).2
    = (sent st ++ [wire_of self c1])%list.
Proof. apply same_fingerprint_served. Qed.

(** The order of the chains does not cost a request: after a read of the
    deals that fetched truthy data, a read for the same place with the
    chains in another order is served from the cache. *)
Theorem permuted_chains_are_served zip_code radius (l1 l2 : list string) st :
  let c1 := TodaysDeals zip_code radius (Some l1) in
  let data := seen (session_request w (length (sent st)) (wire_of self c1)) in
  let st1 := (get_todays_deals w settings self zip_code radius (Some l1) st).2 in
  l1 ≡ₚ l2 ->
  (forall v, cache_hit w settings st (fingerprint c1) v -> truthy v = false) ->
  truthy data = true ->
  cache_hit w settings st1 (fingerprint c1) data ->
  (get_todays_deals w settings self zip_code radius (Some l2) st1).1 = Ok data /\
  sent (get_todays_deals w settings self zip_code radius (Some l2) st1).2
    = (sent st ++ [wire_of self c1])%list.
Proof.
  intros c1 data st1 Hp Hmiss Hdata Hhit.
  apply (same_fingerprint_served c1 (TodaysDeals zip_code radius (Some l2)) st);
    try done.
  cbn [fingerprint c1]. unfold deals_key. simpl.
  by rewrite (sorted_unique l1 l2 Hp).
Qed.

(** No negative caching.  When a read misses the cache and what it fetches
    is falsy ([None] after a failure, or an empty answer), the same read
    made again goes to the network again, however soon, and returns what
    the second request brings. *)
Theorem falsy_result_is_refetched c st :
  let data := seen (session_request w (length (sent st)) (wire_of self c)) in
  let st1 := (run w settings self c st).2 in
  (forall v, cache_hit w settings st (fingerprint c) v -> truthy v = false) ->
  truthy data = false ->
  (run w settings self c st1).1
    = Ok (seen (session_request w (S (length (sent st))) (wire_of self c))) /\
  sent (run w settings self c st1).2
    = (sent st ++ [wire_of self c; wire_of self c])%list.
Proof.
  intros data st1 Hmiss Hdata. subst st1.
  destruct (run_cases c st)
    as [(v & ts & Hv & Hfresh & Htrue & _)|(cache0 & ticks0 & lg & _ & _ & Hrun)].
  { rewrite (Hmiss v) in Htrue; [done|]. exists ts. by rewrite <- Qltb_lt. }
  rewrite Hrun. cbn [snd].
  match goal with |- context [run w settings self c ?s] =>
    destruct (run_cases c s)
      as [(v & ts & Hv & _ & Htrue & _)|(? & ? & ? & _ & _ & ->)] end.
  - simpl in Hv. rewrite lookup_insert_eq in Hv. simplify_eq.
    fold data in Htrue. congruence.
  - simpl. rewrite length_app, Nat.add_1_r, <- app_assoc. done.
Qed.

End ClientFacts.

Section MoreClientFacts.
Context (w : world) (settings : Settings) (self : DealScoutAPI).

(** The last write wins and restarts the TTL: after two [_set_cache] on a
    key, a [_get_cached] within the TTL of the second one returns the
    second value, however old the first entry is. *)
Theorem cache_last_write_wins k v1 v2 st :
  let st2 := (_set_cache w k v2 (_set_cache w k v1 st).2).2 in
  (clock w (ticks st2) - clock w (S (ticks st)) < inject_Z (CACHE_TTL settings))%Q ->
  (_get_cached w settings k st2).1 = Ok v2 /\
  cache st2 = <[k := (v2, clock w (S (ticks st)))]> (cache st).
Proof.
  intros st2 Hage. subst st2. rewrite !_set_cache_run in *. simpl in *.
  rewrite _get_cached_run. simpl. rewrite lookup_insert_eq.
  apply Qltb_lt in Hage. rewrite Hage. split; [done|].
  apply insert_insert_eq.
Qed.


(** The severity of the log follows the class of the failure: a call that
    succeeds logs its debug line only; a failure of the class
    [RequestException] adds one warning, any other failure one error. *)
Theorem request_log_severity method endpoint kw st :
  let answer := session_request w (length (sent st)) (wire self method endpoint kw) in
  match failure_of answer with
  | None =>
      exists d, log (_request w self method endpoint kw st).2
                = (log st ++ [LogDebug d])%list
  | Some e =>
      exists d r,
        log (_request w self method endpoint kw st).2
          = (log st ++ [LogDebug d; r])%list /\
        is_warning r = is_RequestException e /\
        is_error r = negb (is_RequestException e)
  end.
Proof.
  unfold _request, try_except, session_call, lift, logger, wire,
    mbind, M_bind, mret, M_ret; simpl.
  destruct (session_request w _ _) as [r|e]; simpl.
  - destruct (raise_for_status r) as [[]|e]; simpl.
    + destruct (json r) as [v|e]; simpl; [by eexists|].
      destruct (is_RequestException e); simpl;
        do 2 eexists; rewrite <- app_assoc; by split.
    + destruct (is_RequestException e); simpl;
        do 2 eexists; rewrite <- app_assoc; by split.
  - destruct (is_RequestException e); simpl;
      do 2 eexists; rewrite <- app_assoc; by split.
Qed.

End MoreClientFacts.

(** *** The join of the base URL and the endpoint *)

Lemma lstrip_slashes m e : lstrip "/" (slashes m +:+ e) = lstrip "/" e.
Proof. induction m as [|m IH]; [done|]. exact IH. Qed.

Lemma rstrip_slash_end b : rstrip "/" (b +:+ "/") = rstrip "/" b.
Proof.
  induction b as [|c b IH]; [done|].
  rewrite append_cons. cbn [rstrip]. by rewrite IH.
Qed.

Lemma append_slashes_end b n : b +:+ slashes (S n) = (b +:+ "/") +:+ slashes n.
Proof.
  induction b as [|c b IH]; [done|].
  rewrite !append_cons. by rewrite IH.
Qed.

Lemma rstrip_slashes n : forall b, rstrip "/" (b +:+ slashes n) = rstrip "/" b.
Proof.
  induction n as [|n IH]; intros b.
  - induction b as [|c b IHb]; [done|]. rewrite append_cons. cbn [rstrip].
    by rewrite IHb.
  - by rewrite append_slashes_end, IH, rstrip_slash_end.
Qed.

Lemma lstrip_no_slash e t : lstrip "/" e <> String "/" t.
Proof.
  induction e as [|c e IH]; [done|]. cbn [lstrip].
  destruct (Ascii.eqb_spec c "/") as [-> | Hc]; [done|]. congruence.
Qed.

Lemma rstrip_no_slash b t : rstrip "/" b <> t +:+ "/".
Proof.
  revert t. induction b as [|c b IH]; intros t; cbn [rstrip].
  - by destruct t.
  - destruct (rstrip "/" b) as [|c' r] eqn:Hr.
    + destruct (Ascii.eqb_spec c "/") as [-> | Hc].
      * by destruct t.
      * destruct t as [|c'' [|? ?]]; rewrite ?append_cons, ?append_nil; congruence.
    + destruct t as [|c'' t]; rewrite ?append_cons, ?append_nil; [congruence|].
      intros H. injection H as -> H. by apply (IH t).
Qed.

Lemma rstrip_slashes_off b : exists n, b = rstrip "/" b +:+ slashes n.
Proof.
  induction b as [|c b [n IH]]; [by exists 0%nat|].
  cbn [rstrip]. destruct (rstrip "/" b) as [|c' r] eqn:Hr.
  - rewrite append_nil in IH.
    destruct (Ascii.eqb_spec c "/") as [-> | Hc].
    + exists (S n). by rewrite append_nil, IH.
    + exists n. by rewrite append_cons, append_nil, IH.
  - exists n. by rewrite append_cons, <- IH.
Qed.

Lemma lstrip_slashes_off e : exists m, e = slashes m +:+ lstrip "/" e.
Proof.
  induction e as [|c e [m IH]]; [by exists 0%nat|].
  cbn [lstrip]. destruct (Ascii.eqb_spec c "/") as [-> | Hc].
  - exists (S m). cbn [slashes]. by rewrite append_cons, <- IH.
  - by exists 0%nat.
Qed.

(** Separators at the join do not matter: any number of slashes ending
    the base URL or starting the endpoint gives the same request URL.
    That URL is the base URL without the slashes it ends with, one slash,
    and the endpoint without the slashes it starts with: the base part
    does not end, and the endpoint part does not start, with another. *)
Theorem url_join_tolerates_slashes self b n m e :
  url_of (with_base_url self (b +:+ slashes n)) (slashes m +:+ e)
  = url_of (with_base_url self b) e /\
  exists l r n' m',
    b = l +:+ slashes n' /\ e = slashes m' +:+ r /\
    url_of (with_base_url self b) e = l +:+ "/" +:+ r /\
    (forall t, l <> t +:+ "/") /\ (forall t, r <> String "/" t).
Proof.
  unfold url_of, with_base_url. simpl.
  rewrite lstrip_slashes, rstrip_slashes. split; [done|].
  destruct (rstrip_slashes_off b) as [n' Hb].
  destruct (lstrip_slashes_off e) as [m' He].
  exists (rstrip "/" b), (lstrip "/" e), n', m'.
  split; [done|]. split; [done|]. split; [done|].
  split; intros t; [apply rstrip_no_slash | apply lstrip_no_slash].
Qed.

(** * More properties of the dashboard *)

(** ** [load_deals] *)

Lemma truthy_len_positive v n : truthy v = true -> len v = Ok n -> (0 < n)%Z.
Proof.
  destruct v as [| | | |s|l|d]; simpl; try done; intros Ht Hn; simplify_eq.
  - destruct s; [done|]. simpl. lia.
  - destruct l; [done|]. simpl. lia.
  - apply negb_true_iff, bool_decide_eq_false in Ht.
    pose proof (map_size_ne_0_lookup_1 d) as Hs.
    destruct (decide (size d = 0)) as [H0|H0]; [|lia].
    by apply map_size_empty_iff in H0.
Qed.

Section LoadDeals.
Context (w : world) (settings : Settings).

(** What [load_deals] makes of the answer of the client. *)
Lemma load_deals_run client zip_code radius chains st :
  exists v st1,
    get_todays_deals w settings client zip_code radius (Some chains) st
      = (Ok v, st1) /\
    (load_deals w settings (Some client) zip_code radius chains st).1 =
    Ok (if truthy v
        then match len v with
             | Ok n => (v, n)
             | Raise _ => (of_deals get_mock_deals, 6%Z)
             end
        else (of_deals get_mock_deals, 6%Z)).
Proof.
  assert (Hup : exists v st1,
    get_todays_deals w settings client zip_code radius (Some chains) st
      = (Ok v, st1)).
  { destruct (run_cases w settings client
                (TodaysDeals zip_code radius (Some chains)) st)
      as [(v & ts & _ & _ & _ & Hrun)|(? & ? & ? & _ & _ & Hrun)];
      cbn [run] in Hrun; by do 2 eexists. }
  destruct Hup as (v & st1 & Hrun). exists v, st1. split; [done|].
  unfold load_deals, try_except. unfold mbind at 1. unfold M_bind at 1.
  unfold try_except. unfold mbind at 1. unfold M_bind at 1.
  rewrite Hrun.
  destruct (truthy v) eqn:Hv; [|reflexivity].
  cbn [negb]. unfold lift, mbind, M_bind.
  destruct (len v) as [n|e] eqn:Hn; reflexivity.
Qed.

(** [load_deals] always has something to show: whatever the client, the
    upstream and the cache do, and also without a client, it returns a
    dataset that is not empty together with its length, and it does not
    raise. *)
Theorem load_deals_never_empty api_client zip_code radius chains st :
  exists deals n,
    (load_deals w settings api_client zip_code radius chains st).1 = Ok (deals, n) /\
    truthy deals = true /\ len deals = Ok n /\ (0 < n)%Z.
Proof.
  destruct api_client as [client|]; [|by exists (of_deals get_mock_deals), 6%Z].
  destruct (load_deals_run client zip_code radius chains st)
    as (v & st1 & _ & ->).
  destruct (truthy v) eqn:Hv; [|by exists (of_deals get_mock_deals), 6%Z].
  destruct (len v) as [n|e] eqn:Hn; [|by exists (of_deals get_mock_deals), 6%Z].
  exists v, n. repeat split; try done. by eapply truthy_len_positive.
Qed.

(** Real data passes through: a list of deals that is not empty comes
    back from [load_deals] as it is, with its length; without a client the
    sample comes back and nothing is sent. *)
Theorem load_deals_passes_real_data client zip_code radius chains st x l :
  (get_todays_deals w settings client zip_code radius (Some chains) st).1
    = Ok (VList (x :: l)) ->
  (load_deals w settings (Some client) zip_code radius chains st).1
    = Ok (VList (x :: l), Z.of_nat (S (length l))) /\
  load_deals w settings None zip_code radius chains st
    = (Ok (of_deals get_mock_deals, 6%Z), st).
Proof.
  intros Hup. split; [|done].
  destruct (load_deals_run client zip_code radius chains st)
    as (v & st1 & Hrun & ->).
  rewrite Hrun in Hup. simpl in Hup. by simplify_eq.
Qed.

End LoadDeals.

(** ** The average-savings metric *)




(** ** More on the filter step *)

Lemma selects_elem {A} (P : A -> Prop) l kept x :
  selects P l kept -> (x ∈ kept <-> x ∈ l /\ P x).
Proof.
  induction 1 as [|y l kept Hy Hsel IH|y l kept Hy Hsel IH].
  - split; [by intros ?%elem_of_nil|by intros [?%elem_of_nil _]].
  - rewrite !elem_of_cons, IH. split.
    + intros [-> | [? ?]]; auto.
    + intros [[-> | ?] ?]; auto.
  - rewrite elem_of_cons, IH. split.
    + intros [? ?]; auto.
    + intros [[-> | ?] ?]; [done|auto].
Qed.

Section FilterFacts.
Context {L : Lowering}.

Lemma quick_search_empty : quick_search "" = "".
Proof. unfold quick_search. by apply lower_empty. Qed.

Lemma filter_loop_selects q c deals kept :
  filter_loop q c deals = Ok kept ->
  selects (fun x => keeps q c x = Ok true) deals kept.
Proof.
  revert kept. induction deals as [|d deals IH]; intros kept; cbn [filter_loop].
  - intros [= <-]. constructor.
  - destruct (keeps q c d) as [k|e] eqn:Hk; [|done]. cbn [mbind outcome_bind].
    destruct (filter_loop q c deals) as [kept'|e]; [|done].
    cbn [mbind outcome_bind]. intros [= <-].
    destruct k; [by constructor; auto|].
    apply selects_drop; [congruence|auto].
Qed.

Lemma filtered_deals_loop q c deals :
  filtered_deals q c deals = filter_loop q c deals.
Proof. by destruct deals. Qed.

(** The category test alone, as the loop applies it. *)
Lemma keeps_empty_query c d :
  keeps "" c d
  = Ok (negb (negb (String.eqb c "All") && differs_from (get1 d "category") c)).
Proof.
  unfold keeps. cbn [truthy String.eqb negb mbind outcome_bind mret outcome_ret].
  by destruct (negb (String.eqb c "All") && differs_from (get1 d "category") c).
Qed.

Lemma keeps_all q d :
  keeps q "All" d =
  (if truthy (VStr q) then found ← any_field q d; mret found else mret true).
Proof.
  unfold keeps. destruct (truthy (VStr q)); [|done].
  destruct (any_field q d) as [[]|e]; done.
Qed.

Lemma keeps_splits q c d k :
  keeps q c d = Ok k ->
  exists k1 k2, keeps q "All" d = Ok k1 /\ keeps "" c d = Ok k2 /\ k = k1 && k2.
Proof.
  rewrite keeps_all, keeps_empty_query. unfold keeps.
  destruct (truthy (VStr q)).
  - destruct (any_field q d) as [found|e]; [|done].
    cbn [mbind outcome_bind mret outcome_ret].
    destruct found; cbn [negb];
      destruct (negb (String.eqb c "All") && differs_from (get1 d "category") c);
      intros [= <-]; by do 2 eexists.
  - cbn [mbind outcome_bind mret outcome_ret].
    destruct (negb (String.eqb c "All") && differs_from (get1 d "category") c);
      intros [= <-]; by do 2 eexists.
Qed.

(** With nothing typed and "All" selected, the filter keeps every deal of
    every dataset, whatever its fields hold. *)
Theorem no_filter_keeps_all deals :
  filtered_deals (quick_search "") "All" deals = Ok deals.
Proof.
  rewrite filtered_deals_loop, quick_search_empty.
  induction deals as [|d deals IH]; [done|].
  cbn [filter_loop]. rewrite keeps_empty_query, IH. done.
Qed.

(** Filtering is idempotent: filtering what the filter kept, with the same
    query and category, keeps all of it. *)
Theorem filter_idempotent q c deals kept :
  filtered_deals q c deals = Ok kept ->
  filtered_deals q c kept = Ok kept.
Proof.
  rewrite !filtered_deals_loop.
  revert kept. induction deals as [|d deals IH]; intros kept; cbn [filter_loop].
  - by intros [= <-].
  - destruct (keeps q c d) as [k|e] eqn:Hk; [|done]. cbn [mbind outcome_bind].
    destruct (filter_loop q c deals) as [kept'|e]; [|done].
    cbn [mbind outcome_bind]. intros [= <-].
    destruct k; [|by apply IH].
    cbn [filter_loop]. rewrite Hk, (IH kept') by done. done.
Qed.

(** The search and the category selection are two filters applied one
    after the other, in either order: the deals kept for a query and a
    category are those the category keeps among the deals the query
    keeps, and those the query keeps among the deals the category
    keeps. *)
Theorem filter_is_search_then_category q c deals kept :
  filtered_deals q c deals = Ok kept ->
  (exists found,
     filtered_deals q "All" deals = Ok found /\
     filtered_deals "" c found = Ok kept) /\
  (exists in_category,
     filtered_deals "" c deals = Ok in_category /\
     filtered_deals q "All" in_category = Ok kept).
Proof.
  rewrite filtered_deals_loop. setoid_rewrite filtered_deals_loop.
  revert kept. induction deals as [|d deals IH]; intros kept; cbn [filter_loop].
  - intros [= <-]. by split; exists [].
  - destruct (keeps q c d) as [k|e] eqn:Hk; [|done]. cbn [mbind outcome_bind].
    destruct (filter_loop q c deals) as [kept'|e]; [|done].
    cbn [mbind outcome_bind]. intros [= <-].
    destruct (keeps_splits q c d k Hk) as (k1 & k2 & Hk1 & Hk2 & ->).
    destruct (IH kept' eq_refl) as [(found & Hf1 & Hf2) (incat & Hc1 & Hc2)].
    split.
    + exists (if k1 then d :: found else found).
      rewrite Hk1, Hf1. split; [done|].
      destruct k1; cbn [andb filter_loop].
      * by rewrite Hk2, Hf2.
      * done.
    + exists (if k2 then d :: incat else incat).
      rewrite Hk2, Hc1. split; [done|].
      destruct k2; cbn [andb filter_loop].
      * rewrite Hk1, Hc2. by rewrite andb_true_r.
      * by rewrite andb_false_r.
Qed.

(** ** The category selector *)

Lemma mapM_elem {A B} (f : A -> option B) l k y :
  mapM f l = Some k -> (y ∈ k <-> exists x, x ∈ l /\ f x = Some y).
Proof.
  rewrite mapM_Some. induction 1 as [|x z l k Hx Hl IH].
  - split; [by intros ?%elem_of_nil|by intros (? & ?%elem_of_nil & _)].
  - rewrite elem_of_cons, IH. split.
    + intros [-> | (x' & ? & ?)]; [exists x|exists x']; rewrite elem_of_cons; auto.
    + intros (x' & [-> | ?]%elem_of_cons & Hf); [left; congruence|right; eauto].
Qed.

Lemma category_options_shape deals opts :
  category_options deals = Some opts ->
  exists rest,
    opts = "All" :: rest /\
    NoDup rest /\
    StronglySorted (fun a b => String.ltb b a = false) rest /\
    forall c, c ∈ rest <-> exists d, d ∈ deals /\ category_or_other d = Some c.
Proof.
  unfold category_options.
  destruct (mapM category_or_other deals) as [cs|] eqn:Hm; [|done].
  intros [= <-]. exists (sorted (remove_dups cs)).
  split; [done|]. split; [|split].
  - rewrite sorted_Permutation. apply NoDup_remove_dups.
  - apply (sort_stable_sorted (fun s => s) String.ltb);
      [apply string_ltb_asym | apply string_ltb_trans].
  - intros c. rewrite sorted_Permutation, elem_of_remove_dups.
    by apply mapM_elem.
Qed.


Lemma filter_loop_empty_query c deals :
  exists kept, filter_loop "" c deals = Ok kept.
Proof.
  induction deals as [|d deals [kept IH]]; [by exists []|].
  cbn [filter_loop]. rewrite keeps_empty_query, IH. by eexists.
Qed.

(** Selecting the category of a deal, with nothing typed, shows that
    deal, whatever else the dataset holds. *)
Theorem selected_category_shows_its_deals deals d c :
  d ∈ deals -> d !! "category" = Some (VStr c) ->
  exists kept, filtered_deals (quick_search "") c deals = Ok kept /\ d ∈ kept.
Proof.
  intros Hd Hc. rewrite filtered_deals_loop, quick_search_empty.
  destruct (filter_loop_empty_query c deals) as [kept Hk].
  exists kept. split; [done|].
  apply (selects_elem _ _ _ d (filter_loop_selects _ _ _ _ Hk)).
  split; [done|]. rewrite keeps_empty_query. unfold get1, get. rewrite Hc.
  cbn [differs_from]. rewrite String.eqb_refl. cbn [negb andb].
  by rewrite andb_false_r.
Qed.

(** The selector offers "Other" for a deal without a category, but
    selecting it (or any category but "All") never shows that deal: the
    filter compares the selection with the missing value, not with the
    default the selector displayed. *)
Theorem other_hides_uncategorised deals opts d :
  category_options deals = Some opts ->
  d ∈ deals -> d !! "category" = None ->
  "Other" ∈ opts /\
  forall q c kept,
    c <> "All" -> filtered_deals q c deals = Ok kept -> d ∉ kept.
Proof.
  intros Hopts Hd Hc. split.
  - destruct (category_options_shape deals opts Hopts)
      as (rest & -> & _ & _ & Hrest).
    apply elem_of_cons. right. apply Hrest. exists d. split; [done|].
    unfold category_or_other, get. by rewrite Hc.
  - intros q c kept Hall Hk Hin. rewrite filtered_deals_loop in Hk.
    apply (selects_elem _ _ _ d (filter_loop_selects _ _ _ _ Hk)) in Hin
      as [_ Hkeep].
    destruct (keeps_splits q c d true Hkeep) as (k1 & k2 & _ & Hk2 & Hand).
    rewrite keeps_empty_query in Hk2. unfold get1, get in Hk2. rewrite Hc in Hk2.
    cbn [differs_from] in Hk2.
    destruct (String.eqb_spec c "All") as [? | _]; [done|].
    cbn [negb andb] in Hk2. simplify_eq. by destruct k1.
Qed.

End FilterFacts.

(** ** More on the sort step *)

Lemma sort_stable_of_sorted {A K} (key : A -> K) (before : K -> K -> bool) l :
  StronglySorted (ordered_by key before) l -> sort_stable key before l = l.
Proof.
  induction 1 as [|x l Hl IH Hx]; [done|].
  change (sort_stable key before (x :: l))
    with (insert_stable key before x (sort_stable key before l)).
  rewrite IH. destruct Hx as [|y l' Hy _]; [done|].
  cbn [insert_stable]. unfold ordered_by in Hy. by rewrite Hy.
Qed.

Lemma numeric_keys_total deals :
  Forall numeric_keys deals ->
  Forall (fun x => key_or_inf "price" x = Ok (field_or_inf "price" x)) deals /\
  Forall (fun x => key_or_0 "discount_percent" x
                   = Ok (field_or_0 "discount_percent" x)) deals /\
  Forall (fun x => key_or_inf "distance" x = Ok (field_or_inf "distance" x)) deals /\
  Forall (fun x => key_best_value x = Ok (best_value_pair x)) deals.
Proof.
  intros Hd. repeat split; (eapply Forall_impl; [exact Hd|]); intros d Hn.
  - apply key_or_inf_total; [done|by repeat constructor].
  - apply key_or_0_total; [done|by repeat constructor].
  - apply key_or_inf_total; [done|by repeat constructor].
  - by apply key_best_value_total.
Qed.

(** What [sort_deals] computes on numeric keys: the stable sort by the
    key of the selected ordering. *)
Lemma sort_deals_run sort_option deals :
  Forall numeric_keys deals ->
  sort_deals sort_option deals =
  Ok (if String.eqb sort_option "Price (Low to High)" then
        sort_stable (field_or_inf "price") num_ltb deals
      else if String.eqb sort_option "Discount %" then
        sort_stable (field_or_0 "discount_percent") (fun p q => Qltb q p) deals
      else if String.eqb sort_option "Distance" then
        sort_stable (field_or_inf "distance") num_ltb deals
      else
        sort_stable best_value_pair (fun p q => pair_ltb q p) deals).
Proof.
  intros Hd. destruct (numeric_keys_total deals Hd) as (H1 & H2 & H3 & H4).
  unfold sort_deals.
  destruct (String.eqb sort_option "Price (Low to High)");
    [by apply list_sort_total|].
  destruct (String.eqb sort_option "Discount %");
    [by apply (list_sort_total _ _ Qltb true)|].
  destruct (String.eqb sort_option "Distance");
    [by apply list_sort_total|].
  by apply (list_sort_total _ _ pair_ltb true).
Qed.



(** Sorting is idempotent: sorting what the sort returned, under the
    same ordering, returns it unchanged. *)
Theorem sort_idempotent sort_option deals sorted :
  Forall numeric_keys deals ->
  sort_deals sort_option deals = Ok sorted ->
  sort_deals sort_option sorted = Ok sorted.
Proof.
  intros Hd Hs.
  assert (Hd' : Forall numeric_keys sorted).
  { rewrite (sort_deals_run _ _ Hd) in Hs. injection Hs as <-.
    repeat match goal with |- context [if ?b then _ else _] => destruct b end;
      by rewrite sort_stable_Permutation. }
  rewrite (sort_deals_run _ _ Hd'). rewrite (sort_deals_run _ _ Hd) in Hs.
  injection Hs as <-. f_equal.
  destruct (String.eqb sort_option "Price (Low to High)");
    [apply sort_stable_of_sorted, sort_stable_sorted;
       [apply num_ltb_asym | apply num_ltb_trans]|].
  destruct (String.eqb sort_option "Discount %");
    [apply sort_stable_of_sorted, sort_stable_sorted;
       [intros p q; apply Qgtb_asym | intros p q r; apply Qgtb_trans]|].
  destruct (String.eqb sort_option "Distance");
    [apply sort_stable_of_sorted, sort_stable_sorted;
       [apply num_ltb_asym | apply num_ltb_trans]|].
  apply sort_stable_of_sorted, sort_stable_sorted;
    [intros p q; apply pair_gtb_asym | intros p q r; apply pair_gtb_trans].
Qed.

(** ** The price trends *)

Lemma from_end_last_two {A} (pre : list A) a b :
  from_end (pre ++ [a; b]) 1 = Ok b /\ from_end (pre ++ [a; b]) 2 = Ok a.
Proof.
  unfold from_end. rewrite length_app. cbn [length].
  replace (length pre + 2 - 1)%nat with (length pre + 1)%nat by lia.
  replace (length pre + 2 - 2)%nat with (length pre + 0)%nat by lia.
  rewrite !lookup_app_r by lia.
  replace (length pre + 1 - length pre)%nat with 1%nat by lia.
  replace (length pre + 0 - length pre)%nat with 0%nat by lia.
  cbn [lookup list_lookup].
  split; by (destruct (_ <=? _)%nat eqn:H; [|apply Nat.leb_gt in H; lia]).
Qed.

Lemma mom_change_run pre a b :
  calculate_mom_change (pre ++ [a; b]) =
  if Qeq_bool a 0
  then Raise (OtherException "ZeroDivisionError: float division by zero")
  else Ok (((b - a) / a) * 100)%Q.
Proof.
  unfold calculate_mom_change.
  destruct (from_end_last_two pre a b) as [-> ->].
  assert (Hlen : (Z.of_nat (length (pre ++ [a; b])) <? 2)%Z = false).
  { apply Z.ltb_ge. rewrite length_app. simpl. lia. }
  by rewrite Hlen.
Qed.

(** The month-over-month change reads the last two prices only, however
    long the history; it is 0 for a history of fewer than two prices;
    and it raises when the price before the last is 0. *)
Theorem mom_change_last_two pre a b :
  calculate_mom_change (pre ++ [a; b]) = calculate_mom_change [a; b] /\
  ((a == 0)%Q -> raises (calculate_mom_change (pre ++ [a; b]))) /\
  (~ (a == 0)%Q ->
   calculate_mom_change (pre ++ [a; b]) = Ok (((b - a) / a) * 100)%Q) /\
  calculate_mom_change [] = Ok 0%Q /\
  calculate_mom_change [b] = Ok 0%Q.
Proof.
  pose proof (mom_change_run [] a b) as Hshort. rewrite app_nil_l in Hshort.
  rewrite (mom_change_run pre a b), Hshort.
  split; [done|]. split; [|split; [|done]].
  - intros Ha. apply Qeq_bool_iff in Ha. rewrite Ha. by eexists.
  - intros Ha. destruct (Qeq_bool a 0) eqn:H0; [|done].
    by apply Qeq_bool_iff in H0.
Qed.

(** The sign of the change is the direction of the last move: over a
    positive price, the change is positive, zero or negative as the last
    price is above, at or below the one before; and it is never below
    minus 100 when the last price is not negative. *)
Theorem mom_change_sign pre a b r :
  (0 < a)%Q ->
  calculate_mom_change (pre ++ [a; b]) = Ok r ->
  ((0 < r)%Q <-> (a < b)%Q) /\
  ((r == 0)%Q <-> (a == b)%Q) /\
  ((r < 0)%Q <-> (b < a)%Q) /\
  ((0 <= b)%Q -> (-100 <= r)%Q).
Proof.
  intros Ha. rewrite mom_change_run.
  destruct (Qeq_bool a 0) eqn:H0; [done|]. intros [= <-].
  assert (Hr : (((b - a) / a) * 100 * a == (b - a) * 100)%Q).
  { field. intros H. apply Qeq_bool_neq in H0. by apply H0. }
  set (r := (((b - a) / a) * 100)%Q) in *.
  repeat split; intros; nra.
Qed.

(** * Properties of the models *)

(** The percentage of a price alert.  With a current price of 0 it is 0,
    whatever the target, and nothing is divided.  Over a positive current
    price its sign never disagrees with the price difference: it is not
    negative while the price is at or above the target, and not positive
    once the price is at or below it; and it is at most 100 when the
    target is not negative. *)
Theorem price_difference_percent_sign (a : Models.PriceAlert) :
  ((Models.current_price a == 0)%Q ->
   Models.price_difference_percent a = 0%Q) /\
  ((0 < Models.current_price a)%Q ->
   ((Models.target_price a <= Models.current_price a)%Q ->
    (0 <= Models.price_difference_percent a)%Q) /\
   ((Models.current_price a <= Models.target_price a)%Q ->
    (Models.price_difference_percent a <= 0)%Q) /\
   ((0 <= Models.target_price a)%Q ->
    (Models.price_difference_percent a <= 100)%Q)).
Proof.
  unfold Models.price_difference_percent, Models.price_difference.
  destruct a as [i p n t c act cr lt]; cbn [Models.current_price Models.target_price].
  destruct (Qeq_bool c 0) eqn:H0.
  - apply Qeq_bool_iff in H0. split; [done|].
    intros Hc. rewrite H0 in Hc. by apply Qlt_irrefl in Hc.
  - assert (Hc0 : ~ (c == 0)%Q) by by apply Qeq_bool_neq.
    assert (Hr : ((c - t) / c * 100 * c == (c - t) * 100)%Q) by by field.
    split; [done|]. intros Hc.
    set (r := ((c - t) / c * 100)%Q) in *.
    repeat split; intros; nra.
Qed.

(** Pagination.  With a positive page size there are more results exactly
    on the pages up to the floor of (total - 1) / page size; going back a
    page never loses [has_more]; and with a page size of 0 every page of
    a non-empty result reports more. *)
Theorem has_more_pages ps total pg size q f :
  let r p := {| Models.products := ps; Models.total_results := total;
                Models.page := p; Models.page_size := size;
                Models.query := q; Models.filters := f |} in
  ((0 < size)%Z ->
   (Models.has_more (r pg) = true <-> (pg <= (total - 1) `div` size)%Z)) /\
  ((0 <= size)%Z ->
   Models.has_more (r (pg + 1)%Z) = true -> Models.has_more (r pg) = true) /\
  (size = 0%Z -> Models.has_more (r pg) = (0 <? total)%Z).
Proof.
  intros r. unfold Models.has_more. subst r. cbn.
  split; [|split].
  - intros Hs. rewrite Z.ltb_lt. split; intros H.
    + apply Z.div_le_lower_bound; lia.
    + assert (size * ((total - 1) `div` size) <= total - 1)%Z
        by (apply Z.mul_div_le; lia).
      nia.
  - intros Hs. rewrite !Z.ltb_lt. nia.
  - intros ->. by rewrite Z.mul_0_r.
Qed.

(** The price trend reads the last two points of the history, however
    long: "up", "down" or "stable" as the last price is above, below or
    at the one before; and a history of fewer than two points is
    "stable". *)
Theorem price_trend_reads_last_two p pre x y stores range :
  let d := {| Models.product := p;
              Models.price_history := pre ++ [x; y];
              Models.available_stores := stores;
              Models.price_range := range |} in
  (Models.price_trend d = Ok "up"
   <-> (Models.point_price x < Models.point_price y)%Q) /\
  (Models.price_trend d = Ok "down"
   <-> (Models.point_price y < Models.point_price x)%Q) /\
  (Models.price_trend d = Ok "stable"
   <-> (Models.point_price x == Models.point_price y)%Q) /\
  (forall h, (length h < 2)%nat ->
     Models.price_trend {| Models.product := p; Models.price_history := h;
                           Models.available_stores := stores;
                           Models.price_range := range |} = Ok "stable").
Proof.
  intros d. unfold Models.price_trend. subst d. cbn [Models.price_history].
  destruct (from_end_last_two pre x y) as [-> ->].
  assert (Hlen : (Z.of_nat (length (pre ++ [x; y])) <? 2)%Z = false).
  { apply Z.ltb_ge. rewrite length_app. simpl. lia. }
  rewrite Hlen. cbn [mbind outcome_bind].
  set (px := Models.point_price x). set (py := Models.point_price y).
  split; [|split; [|split]].
  - destruct (Qltb px py) eqn:H1.
    + apply Qltb_lt in H1. by split.
    + apply Qltb_ge in H1. destruct (Qltb py px);
        (split; [done|intros H; lra]).
  - destruct (Qltb px py) eqn:H1.
    + apply Qltb_lt in H1. split; [done|intros H; lra].
    + destruct (Qltb py px) eqn:H2.
      * apply Qltb_lt in H2. by split.
      * apply Qltb_ge in H2. split; [done|intros H; lra].
  - destruct (Qltb px py) eqn:H1.
    + apply Qltb_lt in H1. split; [done|intros H; lra].
    + apply Qltb_ge in H1. destruct (Qltb py px) eqn:H2.
      * apply Qltb_lt in H2. split; [done|intros H; lra].
      * apply Qltb_ge in H2. split; [intros _; lra|done].
  - intros h Hh.
    assert (Hs : (Z.of_nat (length h) <? 2)%Z = true) by (apply Z.ltb_lt; lia).
    by rewrite Hs.
Qed.

(** * Properties of the search script *)

(** The two searches never raise.  When the search service raises, each
    returns the empty dict and prints one line, and the count the script
    reports for it is 0.  The [radius] argument reaches neither the
    request nor the result. *)
Theorem serp_searches_never_raise sw query place radius :
  (exists v, (Serp.search_google_shopping sw query place radius).1 = Ok v) /\
  (exists v, (Serp.search_local_stores sw query place radius).1 = Ok v) /\
  (raises (Serp.get_dict sw (Serp.shopping_params sw query place)) ->
   (Serp.search_google_shopping sw query place radius).1 = Ok (VDict ∅) /\
   length (Serp.search_google_shopping sw query place radius).2 = 1%nat /\
   Serp.count_results (VDict ∅) "shopping_results" = Ok 0%Z) /\
  (raises (Serp.get_dict sw (Serp.local_params sw query place)) ->
   (Serp.search_local_stores sw query place radius).1 = Ok (VDict ∅) /\
   length (Serp.search_local_stores sw query place radius).2 = 1%nat /\
   Serp.count_results (VDict ∅) "local_results" = Ok 0%Z) /\
  (forall radius',
     Serp.search_google_shopping sw query place radius'
       = Serp.search_google_shopping sw query place radius /\
     Serp.search_local_stores sw query place radius'
       = Serp.search_local_stores sw query place radius).
Proof.
  unfold Serp.search_google_shopping, Serp.search_local_stores.
  split; [|split; [|split; [|split]]].
  - destruct (Serp.get_dict sw _); by eexists.
  - destruct (Serp.get_dict sw _); by eexists.
  - intros [e ->]. by repeat split.
  - intros [e ->]. by repeat split.
  - done.
Qed.

(** * Instances of the further properties *)

Lemma shelf_numeric : Forall numeric_keys shelf.
Proof. repeat (constructor; [literal_numeric|]). constructor. Qed.

Lemma cached_read_footprint_witness :
  cache (run (upstream one_deal 10) default_settings client0 austin_deals
           (holding "store_HEB-123" one_deal)).2 !! "store_HEB-123"
  = cache (holding "store_HEB-123" one_deal) !! "store_HEB-123".
Proof.
  apply (proj2 (proj2 (cached_read_footprint (upstream one_deal 10)
                         default_settings client0 austin_deals
                         (holding "store_HEB-123" one_deal)))).
  vm_compute. discriminate.
Defined.

Lemma second_read_is_served_witness :
  (run (upstream one_deal 10) default_settings client0 austin_deals
     (run (upstream one_deal 10) default_settings client0 austin_deals fresh).2).1
  = Ok one_deal /\
  sent (run (upstream one_deal 10) default_settings client0 austin_deals
          (run (upstream one_deal 10) default_settings client0 austin_deals
             fresh).2).2
  = [wire_of client0 austin_deals].
Proof.
  apply (second_read_is_served (upstream one_deal 10) default_settings client0
           austin_deals austin_deals fresh).
  - reflexivity.
  - intros v (ts & Hin & _). vm_compute in Hin. discriminate.
  - reflexivity.
  - exists (inject_Z 10). split; vm_compute; reflexivity.
Defined.

Lemma permuted_chains_are_served_witness :
  (get_todays_deals (upstream one_deal 10) default_settings client0 "78704" 5
     (Some ["Walmart"; "HEB"])
     (get_todays_deals (upstream one_deal 10) default_settings client0 "78704" 5
        (Some ["HEB"; "Walmart"]) fresh).2).1
  = Ok one_deal.
Proof.
  apply (permuted_chains_are_served (upstream one_deal 10) default_settings client0
           "78704" 5 ["HEB"; "Walmart"] ["Walmart"; "HEB"] fresh).
  - apply Permutation_swap.
  - intros v (ts & Hin & _). vm_compute in Hin. discriminate.
  - reflexivity.
  - exists (inject_Z 10). split; vm_compute; reflexivity.
Defined.

Lemma falsy_result_is_refetched_witness :
  sent (run unreachable default_settings client0 austin_deals
          (run unreachable default_settings client0 austin_deals fresh).2).2
  = [wire_of client0 austin_deals; wire_of client0 austin_deals].
Proof.
  apply (falsy_result_is_refetched unreachable default_settings client0
           austin_deals fresh).
  - intros v (ts & Hin & _). vm_compute in Hin. discriminate.
  - reflexivity.
Defined.

Lemma cache_last_write_wins_witness :
  (_get_cached (upstream VNone 0) default_settings "k"
     (_set_cache (upstream VNone 0) "k" (VInt 2)
        (_set_cache (upstream VNone 0) "k" (VInt 1) fresh).2).2).1 = Ok (VInt 2).
Proof.
  apply (cache_last_write_wins (upstream VNone 0) default_settings
           "k" (VInt 1) (VInt 2) fresh).
  vm_compute. reflexivity.
Defined.


Lemma url_join_tolerates_slashes_witness :
  url_of (with_base_url client0 ("https://api.example.com/v1" +:+ slashes 2))
    (slashes 1 +:+ "deals/today")
  = url_of (with_base_url client0 "https://api.example.com/v1") "deals/today".
Proof.
  apply (url_join_tolerates_slashes client0 "https://api.example.com/v1" 2 1
           "deals/today").
Defined.

Lemma load_deals_passes_real_data_witness :
  (load_deals (upstream (VList [VInt 1; VInt 2]) 0) default_settings (Some client0)
     "78704" 5 ["HEB"] fresh).1 = Ok (VList [VInt 1; VInt 2], 2%Z).
Proof.
  apply (load_deals_passes_real_data (upstream (VList [VInt 1; VInt 2]) 0)
           default_settings client0 "78704" 5 ["HEB"] fresh (VInt 1) [VInt 2]).
  vm_compute. reflexivity.
Defined.


Lemma filter_idempotent_witness :
  filtered_deals (L := ascii_lowering) "eggs" "Dairy" [eggs] = Ok [eggs].
Proof.
  apply (filter_idempotent (L := ascii_lowering) "eggs" "Dairy" shelf [eggs]).
  vm_compute. reflexivity.
Defined.

Lemma filter_is_search_then_category_witness :
  exists found,
    filtered_deals (L := ascii_lowering) "e" "All" shelf = Ok found /\
    filtered_deals (L := ascii_lowering) "" "Dairy" found = Ok [milk; eggs].
Proof.
  apply (proj1 (filter_is_search_then_category (L := ascii_lowering)
                  "e" "Dairy" shelf [milk; eggs]
                  ltac:(vm_compute; reflexivity))).
Defined.


Lemma selected_category_shows_its_deals_witness :
  exists kept,
    filtered_deals (L := ascii_lowering) (quick_search (L := ascii_lowering) "")
      "Dairy" shelf = Ok kept /\
    eggs ∈ kept.
Proof.
  apply (selected_category_shows_its_deals (L := ascii_lowering)
           shelf eggs "Dairy").
  - by repeat constructor.
  - vm_compute. reflexivity.
Defined.

Lemma other_hides_uncategorised_witness :
  "Other" ∈ ["All"; "Dairy"; "Other"] /\
  forall q c kept,
    c <> "All" ->
    filtered_deals (L := ascii_lowering) q c shelf = Ok kept -> beef ∉ kept.
Proof.
  apply (other_hides_uncategorised (L := ascii_lowering)
           shelf ["All"; "Dairy"; "Other"] beef).
  - vm_compute. reflexivity.
  - by repeat constructor.
  - vm_compute. reflexivity.
Defined.


Lemma sort_idempotent_witness :
  sort_deals "Discount %" [eggs; milk; beef] = Ok [eggs; milk; beef].
Proof.
  apply (sort_idempotent "Discount %" shelf [eggs; milk; beef] shelf_numeric).
  vm_compute. reflexivity.
Defined.

Lemma mom_change_last_two_witness :
  calculate_mom_change dairy_trend = Ok (((4.79 - 4.89) / 4.89) * 100)%Q.
Proof.
  apply (proj1 (proj2 (proj2 (mom_change_last_two
           [4.99; 4.79; 4.89; 4.95; 4.99; 5.29; 5.49; 5.29; 5.19; 4.99]%Q
           4.89 4.79)))).
  vm_compute. discriminate.
Defined.

Lemma mom_change_sign_witness :
  ((((4.79 - 4.89) / 4.89) * 100 < 0)%Q <-> (4.79 < 4.89)%Q).
Proof.
  apply (mom_change_sign
           [4.99; 4.79; 4.89; 4.95; 4.99; 5.29; 5.49; 5.29; 5.19; 4.99]%Q
           4.89 4.79 (((4.79 - 4.89) / 4.89) * 100)%Q).
  - vm_compute. reflexivity.
  - vm_compute. reflexivity.
Defined.

Lemma price_difference_percent_sign_witness :
  (0 <= Models.price_difference_percent alert)%Q.
Proof.
  refine (proj1 (proj2 (price_difference_percent_sign alert) _) _).
  - vm_compute. reflexivity.
  - vm_compute. discriminate.
Defined.

Lemma has_more_pages_witness :
  Models.has_more {| Models.products := []; Models.total_results := 25;
                     Models.page := 2; Models.page_size := 10;
                     Models.query := "milk"; Models.filters := ∅ |} = true
  <-> (2 <= (25 - 1) `div` 10)%Z.
Proof.
  apply (proj1 (has_more_pages [] 25 2 10 "milk" ∅)).
  lia.
Defined.

Lemma price_trend_reads_last_two_witness :
  Models.price_trend {| Models.product := some_product;
                        Models.price_history := [point 4.99];
                        Models.available_stores := [];
                        Models.price_range := None |} = Ok "stable".
Proof.
  apply (proj2 (proj2 (proj2 (price_trend_reads_last_two some_product []
                                (point 1) (point 2) [] None)))).
  simpl. lia.
Defined.

Lemma serp_searches_never_raise_witness :
  (Serp.search_google_shopping serp_down "4K TV" "78704" 5).1 = Ok (VDict ∅) /\
  length (Serp.search_google_shopping serp_down "4K TV" "78704" 5).2 = 1%nat /\
  Serp.count_results (VDict ∅) "shopping_results" = Ok 0%Z.
Proof.
  apply (proj1 (proj2 (proj2 (serp_searches_never_raise serp_down "4K TV"
                                "78704" 5)))).
  by eexists.
Defined.
